(** * The LinkedIn connection bot (main.py): session detection, login,
      people search, extraction pass and message dispatch, over an abstract
      page driver.

    The program drives a live page through Playwright.  The page is not
    under the program's control, so every Playwright call is modelled as an
    operation of an abstract [PageDriver]: it reads and changes an opaque
    [World] (the browser, the page, the site behind it, the clock) and
    either returns a value or raises a Python [Exception].  What a wait
    does when its bound expires is the driver's business: it raises.

    The coroutines of main.py await one call at a time, so a coroutine is
    modelled as a function from the world it starts in to a [Run]: its
    outcome, the world it leaves and the log of what it did (the lines it
    printed and the driver calls it issued, in order).  An exception keeps
    the world and the log as they are when it is raised. *)

From Stdlib Require Import List String Ascii Bool ZArith Lia.
Import ListNotations.
Open Scope string_scope.
Open Scope list_scope.

(** ** Python values and exceptions *)

(** [needle in hay] on Python strings. *)
Fixpoint str_in (needle hay : string) : bool :=
  if String.prefix needle hay then true
  else match hay with
       | EmptyString => false
       | String _ rest => str_in needle rest
       end.

(** A value that is either [None] or a [str]: what [os.getenv] and
    [get_attribute] return.  The characters of the model stand for the
    code points of the Python string. *)
Definition PyVal : Type := option string.

(** [str(v)], as an f-string formats it. *)
Definition py_str (v : PyVal) : string :=
  match v with
  | None => "None"
  | Some s => s
  end.

Inductive ExnType : Type :=
| TypeError
| ValueError
| DriverError.   (* whatever a Playwright call raises: TimeoutError, Error, AssertionError *)

(** An instance of Python's [Exception]; [exn_text] is [str(e)].
    [KeyboardInterrupt] and the other [BaseException]s that
    [except Exception] lets through are not modelled. *)
Record Exception : Type := mkExn { exn_type : ExnType; exn_text : string }.

Inductive Outcome (A : Type) : Type :=
| Ok (a : A)
| Raise (e : Exception).
Arguments Ok {A} a.
Arguments Raise {A} e.

(** ** Locators and driver calls *)

Inductive Locator : Type :=
| Css (selector : string)                        (* page.locator(sel) *)
| ByRole (role name : string) (exact : bool)     (* page.get_by_role(role, name=, exact=) *)
| ByLabel (text : string)                        (* page.get_by_label(text) *)
| Within (parent : Locator) (selector : string)  (* parent.locator(sel) *)
| Item (parent : Locator) (index : nat).         (* an entry of parent.all() *)

Inductive Call : Type :=
| CStart                                   (* async_playwright().__aenter__ *)
| CStop                                    (* async_playwright().__aexit__ *)
| CLaunch                                  (* p.chromium.launch(headless=False, slow_mo=100) *)
| CNewPage                                 (* browser.new_page() *)
| CClose                                   (* browser.close() *)
| CGoto (url : string)
| CIsVisible (l : Locator) (timeout : Z)
| CWaitFor (l : Locator) (timeout : Z)
| CFill (l : Locator) (value : PyVal)
| CClick (l : Locator)
| CExpectVisible (l : Locator) (timeout : Z)
| CScreenshot (path : string)
| CPause
| CPress (key : string)
| CWaitForTimeout (ms : Z)
| CAll (l : Locator)
| CGetAttribute (l : Locator) (name : string)
| CInnerText (l : Locator).

Inductive Event : Type :=
| Print (line : string)                  (* print(<str>) *)
| PrintList (items : list PyVal)         (* print(<list>) *)
| Called (c : Call)                      (* a driver call was issued *)
| Dispatch (person : PyVal).             (* people_message was entered with this argument *)

(** The capability interface of Playwright that main.py uses.  Each call
    may change the world and may raise. *)
Record PageDriver : Type := mkDriver {
  World : Type;
  page_url : World -> string;
  playwright_start : World -> Outcome unit * World;
  playwright_stop : World -> World;
  launch : World -> Outcome unit * World;
  new_page : World -> Outcome unit * World;
  browser_close : World -> Outcome unit * World;
  goto : string -> World -> Outcome unit * World;
  is_visible : Locator -> Z -> World -> Outcome bool * World;
  wait_for : Locator -> Z -> World -> Outcome unit * World;
  fill : Locator -> PyVal -> World -> Outcome unit * World;
  click : Locator -> World -> Outcome unit * World;
  expect_to_be_visible : Locator -> Z -> World -> Outcome unit * World;
  screenshot : string -> World -> Outcome unit * World;
  pause : World -> Outcome unit * World;
  keyboard_press : string -> World -> Outcome unit * World;
  wait_for_timeout : Z -> World -> Outcome unit * World;
  locator_all : Locator -> World -> Outcome (list Locator) * World;
  get_attribute : Locator -> string -> World -> Outcome PyVal * World;
  inner_text : Locator -> World -> Outcome string * World
}.

(** ** Runs *)

Record Run (W A : Type) : Type := mkRun {
  outcome : Outcome A;
  final : W;
  log : list Event
}.
Arguments mkRun {W A} outcome final log.
Arguments outcome {W A} r.
Arguments final {W A} r.
Arguments log {W A} r.

Definition M (W A : Type) : Type := W -> Run W A.

Definition ret {W A} (a : A) : M W A :=
  fun w => mkRun (Ok a) w [].

Definition raise {W A} (e : Exception) : M W A :=
  fun w => mkRun (Raise e) w [].

Definition bind {W A B} (m : M W A) (k : A -> M W B) : M W B :=
  fun w =>
    match m w with
    | mkRun (Ok a) w1 l1 =>
        match k a w1 with
        | mkRun o w2 l2 => mkRun o w2 (l1 ++ l2)
        end
    | mkRun (Raise e) w1 l1 => mkRun (Raise e) w1 l1
    end.

(** [try: m except Exception as e: handler e]. *)
Definition try_except {W A} (m : M W A) (handler : Exception -> M W A) : M W A :=
  fun w =>
    match m w with
    | mkRun (Ok a) w1 l1 => mkRun (Ok a) w1 l1
    | mkRun (Raise e) w1 l1 =>
        match handler e w1 with
        | mkRun o w2 l2 => mkRun o w2 (l1 ++ l2)
        end
    end.

(** [try: m finally: cleanup], for a cleanup that does not raise; [c] is
    the call the cleanup makes. *)
Definition finally {W A} (m : M W A) (cleanup : W -> W) (c : Call) : M W A :=
  fun w =>
    match m w with
    | mkRun o w1 l1 => mkRun o (cleanup w1) (l1 ++ [Called c])
    end.

Definition emit {W} (e : Event) : M W unit :=
  fun w => mkRun (Ok tt) w [e].

Definition print {W} (line : string) : M W unit := emit (Print line).

(** Issue a driver call: log it, then let the driver run it. *)
Definition call {W A} (c : Call) (op : W -> Outcome A * W) : M W A :=
  fun w => let '(o, w') := op w in mkRun o w' [Called c].

Declare Scope py_scope.
Delimit Scope py_scope with py.
Notation "x <- m ;; k" := (bind m (fun x => k))
  (at level 100, m at next level, right associativity) : py_scope.
Notation "m ;; k" := (bind m (fun _ => k))
  (at level 100, right associativity) : py_scope.
Open Scope py_scope.

(** ** The program *)

Definition COMPANY_TO_SEARCH : string := "Amazon".

(** The two module-level values read from the environment by [os.getenv]. *)
Record Env : Type := mkEnv {
  LINKEDIN_EMAIL : PyVal;
  LINKEDIN_PASSWORD : PyVal
}.

Definition dquote : string := String (ascii_of_nat 34) EmptyString.

(** [name, link = item]: unpacking a value into two targets. *)
Definition unpack2 {W} (item : PyVal) : M W (string * string) :=
  match item with
  | None => raise (mkExn TypeError "cannot unpack non-iterable NoneType object")
  | Some EmptyString =>
      raise (mkExn ValueError "not enough values to unpack (expected 2, got 0)")
  | Some (String _ EmptyString) =>
      raise (mkExn ValueError "not enough values to unpack (expected 2, got 1)")
  | Some (String a (String b EmptyString)) =>
      ret (String a EmptyString, String b EmptyString)
  | Some _ => raise (mkExn ValueError "too many values to unpack (expected 2)")
  end.

(** ["Message " + person]. *)
Definition concat_message {W} (person : PyVal) : M W string :=
  match person with
  | Some s => ret ("Message " ++ s)%string
  | None =>
      raise (mkExn TypeError
               ("can only concatenate str (not " ++ dquote ++ "NoneType"
                ++ dquote ++ ") to str")%string)
  end.

Section Program.

Variable drv : PageDriver.
Abbreviation Py := (M (World drv)).

Definition SIGN_IN_BUTTON : Locator := ByRole "button" "Sign in" true.
Definition JOIN_NOW_LINK : Locator := ByRole "link" "Join now" false.
Definition USERNAME_FIELD : Locator := Css "#username".
Definition PASSWORD_FIELD : Locator := ByLabel "Password".
Definition MESSAGING_LINK : Locator := ByRole "link" "Messaging" false.
Definition PROFILE_CARDS : Locator := Css "div.presence-entity--size-3".

(** main.py, lines 17-53.  [Some b] out of the [try] block is [return b]
    inside it; [None] is falling out of it, normally or through [except]. *)
Definition is_logged_in : Py bool :=
  fun w =>
    if str_in "/feed" (page_url drv w) then
      (print "INFO: Currently on the feed page. User is logged in.";;
       ret true) w
    else
      (returned <-
         try_except
           (sign_in <- call (CIsVisible SIGN_IN_BUTTON 2000)
                            (is_visible drv SIGN_IN_BUTTON 2000);;
            either <- (if sign_in then ret true
                       else call (CIsVisible JOIN_NOW_LINK 2000)
                                 (is_visible drv JOIN_NOW_LINK 2000));;
            if either then
              print "INFO: Found 'Sign in' or 'Join now' elements. User is logged out.";;
              ret (Some false)
            else ret None)
           (fun _ => ret None);;
       match returned with
       | Some b => ret b
       | None =>
           print "INFO: Did not find explicit login prompts, assuming user is logged in.";;
           ret true
       end) w.

(** main.py, lines 64-92: the body of the [try] block of [login]. *)
Definition login_attempt (email password : PyVal) : Py bool :=
  print "INFO: Locating the email field using its ID...";;
  call (CWaitFor USERNAME_FIELD 10000) (wait_for drv USERNAME_FIELD 10000);;
  print ("INFO: Filling out email: " ++ py_str email)%string;;
  call (CFill USERNAME_FIELD email) (fill drv USERNAME_FIELD email);;
  print "INFO: Locating and filling password field...";;
  call (CFill PASSWORD_FIELD password) (fill drv PASSWORD_FIELD password);;
  print "INFO: Clicking 'Sign in'...";;
  call (CClick SIGN_IN_BUTTON) (click drv SIGN_IN_BUTTON);;
  print "INFO: Waiting for login confirmation...";;
  call (CExpectVisible MESSAGING_LINK 60000)
       (expect_to_be_visible drv MESSAGING_LINK 60000);;
  print "SUCCESS: Login successful!";;
  ret true.

(** main.py, lines 95-105: the [except Exception as e] block of [login]. *)
Definition login_failed (e : Exception) : Py bool :=
  print "ERROR: Login attempt failed.";;
  print "Check the screenshot and error message below to debug.";;
  print ("DEBUG: The specific error was: " ++ exn_text e)%string;;
  let screenshot_path := "login_error.png" in
  call (CScreenshot screenshot_path) (screenshot drv screenshot_path);;
  print ("A screenshot has been saved to '" ++ screenshot_path ++ "'")%string;;
  call CPause (pause drv);;
  ret false.

(** main.py, lines 56-105. *)
Definition login (email password : PyVal) : Py bool :=
  print "INFO: Navigating to LinkedIn login page...";;
  call (CGoto "https://www.linkedin.com/login")
       (goto drv "https://www.linkedin.com/login");;
  try_except (login_attempt email password) login_failed.

(** main.py, lines 109-119. *)
Definition company_search (company : string) : Py unit :=
  let search_exact := ByRole "combobox" "Search" true in
  let search := ByRole "combobox" "Search" false in
  print "Searching for People to connect ";;
  call (CClick search_exact) (click drv search_exact);;
  print ("INFO: Filling out company: " ++ company)%string;;
  call (CFill search (Some company)) (fill drv search (Some company));;
  call (CPress "Enter") (keyboard_press drv "Enter");;
  print "Found Company...";;
  call (CWaitForTimeout 3000) (wait_for_timeout drv 3000).

(** main.py, lines 121-123. *)
Definition people_message (person : PyVal) : Py unit :=
  emit (Dispatch person);;
  name1 <- concat_message person;;
  call (CClick (ByRole "button" name1 true)) (click drv (ByRole "button" name1 true)).

(** main.py, lines 131-144: the filter steps of [people_search]. *)
Definition apply_first_degree_filter : Py unit :=
  let all_filters_button := ByRole "button" "All filters" false in
  let first := ByRole "button" "1st" true in
  let apply := ByRole "button" "Apply current filters to show results" true in
  print "Searching for people.....";;
  print "Demonstration finished. Keeping browser open...";;
  call (CExpectVisible all_filters_button 3000)
       (expect_to_be_visible drv all_filters_button 3000);;
  call (CClick all_filters_button) (click drv all_filters_button);;
  call (CClick first) (click drv first);;
  call (CClick apply) (click drv apply);;
  print "applying People Filters.....";;
  call (CWaitForTimeout 3000) (wait_for_timeout drv 3000).

(** main.py, lines 152-159: the body of the [try] block run for one card.
    [Some name] is [results.append(name)]; [None] appends nothing. *)
Definition read_card (card : Locator) : Py (option PyVal) :=
  let img := Within card "img.presence-entity__image" in
  name <- call (CGetAttribute img "alt") (get_attribute drv img "alt");;
  let span := Within card "span.visually-hidden" in
  first <- call (CInnerText span) (inner_text drv span);;
  match first with
  | EmptyString => ret None
  | _ =>
      second <- call (CInnerText span) (inner_text drv span);;
      if str_in "Status" second then ret (Some name) else ret None
  end.

(** main.py, lines 150-161: the [for card in profile_cards] loop. *)
Fixpoint scan_cards (profile_cards : list Locator) (results : list PyVal)
  : Py (list PyVal) :=
  match profile_cards with
  | [] => ret results
  | card :: rest =>
      results' <-
        try_except
          (appended <- read_card card;;
           match appended with
           | Some name => ret (results ++ [name])
           | None => ret results
           end)
          (fun _ => ret results);;
      scan_cards rest results'
  end.

(** main.py, lines 146-166: the extraction pass of [people_search]. *)
Definition extract : Py (list PyVal) :=
  profile_cards <- call (CAll PROFILE_CARDS) (locator_all drv PROFILE_CARDS);;
  results <- scan_cards profile_cards [];;
  print "Profiles with Status found....";;
  emit (PrintList results);;
  ret results.

(** main.py, lines 129-166. *)
Definition people_search : Py (list PyVal) :=
  apply_first_degree_filter;;
  extract.

(** main.py, lines 170-173. *)
Fixpoint message_person (people_with_status : list PyVal) : Py unit :=
  match people_with_status with
  | [] => ret tt
  | item :: rest =>
      name_link <- unpack2 item;;
      print ("Ready to process: " ++ fst name_link)%string;;
      message_person rest
  end.

(** main.py, lines 196-200: the [for person in person_found] loop. *)
Fixpoint message_each (person_found : list PyVal) : Py unit :=
  match person_found with
  | [] => ret tt
  | person :: rest =>
      people_message person;;
      print "Demonstration finished. Keeping browser open...";;
      call CPause (pause drv);;
      call CClose (browser_close drv);;
      message_each rest
  end.

(** main.py, lines 180-208: what runs inside [async with async_playwright()]. *)
Definition demonstration_body (env : Env) : Py unit :=
  call CLaunch (launch drv);;
  call CNewPage (new_page drv);;
  call (CGoto "https://www.linkedin.com/feed/")
       (goto drv "https://www.linkedin.com/feed/");;
  logged_in <- is_logged_in;;
  (if negb logged_in then
     print "User is not logged in. Attempting login...";;
     login (LINKEDIN_EMAIL env) (LINKEDIN_PASSWORD env);;
     ret tt
   else print "User is already logged in. No action needed.");;
  company_search COMPANY_TO_SEARCH;;
  print "Company search completed";;
  person_found <- people_search;;
  message_each person_found;;
  print "Demonstration finished. Keeping browser open...";;
  call CPause (pause drv);;
  call CClose (browser_close drv);;
  print "Demonstration finished. Keeping browser open...";;
  call CPause (pause drv);;
  call CClose (browser_close drv).

(** main.py, lines 178-208. *)
Definition main_demonstration (env : Env) : Py unit :=
  call CStart (playwright_start drv);;
  finally (demonstration_body env) (playwright_stop drv) CStop.

End Program.

(** ** Observations on a run *)

(** The visibility probes issued, in order. *)
Fixpoint probes (tr : list Event) : list Locator :=
  match tr with
  | [] => []
  | Called (CIsVisible l _) :: rest => l :: probes rest
  | _ :: rest => probes rest
  end.

(** The arguments [people_message] was called with, in order. *)
Fixpoint dispatched (tr : list Event) : list PyVal :=
  match tr with
  | [] => []
  | Dispatch person :: rest => person :: dispatched rest
  | _ :: rest => dispatched rest
  end.

(** The lists printed by [print(results)], in order. *)
Fixpoint printed_lists (tr : list Event) : list (list PyVal) :=
  match tr with
  | [] => []
  | PrintList items :: rest => items :: printed_lists rest
  | _ :: rest => printed_lists rest
  end.

(** The answer of the "Sign in" probe on the page as it is. *)
Definition sign_in_probe (drv : PageDriver) (w : World drv) : Outcome bool :=
  fst (is_visible drv SIGN_IN_BUTTON 2000 w).

(** The answer of the "Join now" probe on the page as the first probe
    leaves it. *)
Definition join_now_probe (drv : PageDriver) (w : World drv) : Outcome bool :=
  fst (is_visible drv JOIN_NOW_LINK 2000
         (snd (is_visible drv SIGN_IN_BUTTON 2000 w))).

(** Page [w'] shows [is_logged_in] what page [w] shows it: the same URL and
    the same answers to the two probes. *)
Definition unchanged (drv : PageDriver) (w w' : World drv) : Prop :=
  page_url drv w' = page_url drv w
  /\ sign_in_probe drv w' = sign_in_probe drv w
  /\ join_now_probe drv w' = join_now_probe drv w.

(** ** A simulated site, to run the program on *)

Module Sim.

Fixpoint locator_eqb (a b : Locator) : bool :=
  match a, b with
  | Css s, Css s' => String.eqb s s'
  | ByRole r n e, ByRole r' n' e' =>
      String.eqb r r' && String.eqb n n' && Bool.eqb e e'
  | ByLabel t, ByLabel t' => String.eqb t t'
  | Within p s, Within p' s' => locator_eqb p p' && String.eqb s s'
  | Item p i, Item p' i' => locator_eqb p p' && Nat.eqb i i'
  | _, _ => false
  end.

Definition among (l : Locator) (ls : list Locator) : bool :=
  existsb (locator_eqb l) ls.

Record Card : Type := mkCard {
  card_alt : Outcome PyVal;       (* what reading the image's alt gives *)
  card_status : Outcome string    (* what reading the hidden status text gives *)
}.

Record Page : Type := mkPage {
  url : string;
  signed_in : bool;
  password_ok : bool;             (* the site accepts the credentials typed in *)
  offline : bool;                 (* navigation fails *)
  closed : bool;                  (* the browser was closed *)
  two_sign_in : bool;             (* signed-out pages show "Sign in" twice *)
  cards : list Card;              (* the result cards, as rendered *)
  reachable : list string;        (* the names that have a "Message <name>" button *)
  disk_full : bool;               (* a screenshot cannot be written *)
  files : list string             (* the screenshots written *)
}.

Definition LOGIN_URL : string := "https://www.linkedin.com/login".
Definition FEED_URL : string := "https://www.linkedin.com/feed/".
Definition HOME_URL : string := "https://www.linkedin.com/".

Definition closed_error : Exception :=
  mkExn DriverError "Target page, context or browser has been closed".
Definition timeout_error : Exception :=
  mkExn DriverError "Timeout exceeded while waiting for the locator".
Definition strict_error : Exception :=
  mkExn DriverError "strict mode violation: the locator resolved to 2 elements".
Definition net_error : Exception :=
  mkExn DriverError "net::ERR_INTERNET_DISCONNECTED".
Definition disk_error : Exception :=
  mkExn DriverError "ENOSPC: no space left on device".

(** The controls of a signed-in page. *)
Definition member_controls : list Locator :=
  [ ByRole "link" "Messaging" false;
    ByRole "combobox" "Search" true; ByRole "combobox" "Search" false;
    ByRole "button" "All filters" false; ByRole "button" "1st" true;
    ByRole "button" "Apply current filters to show results" true ].

Definition message_button (name : string) : Locator :=
  ByRole "button" ("Message " ++ name)%string true.

(** The controls the page shows in its present state. *)
Definition controls (p : Page) : list Locator :=
  if signed_in p then member_controls ++ map message_button (reachable p)
  else if String.eqb (url p) LOGIN_URL then
         [ Css "#username"; ByLabel "Password"; ByRole "button" "Sign in" true ]
       else [ ByRole "button" "Sign in" true; ByRole "link" "Join now" false ].

(** A locator that matches several elements of the page. *)
Definition ambiguous (l : Locator) (p : Page) : bool :=
  two_sign_in p && negb (signed_in p) && negb (String.eqb (url p) LOGIN_URL)
  && locator_eqb l (ByRole "button" "Sign in" true).

(** Every operation on a closed browser raises. *)
Definition alive {A} (op : Page -> Outcome A * Page) : Page -> Outcome A * Page :=
  fun p => if closed p then (Raise closed_error, p) else op p.

(** An operation that waits for its element and then leaves the page alone. *)
Definition act (l : Locator) : Page -> Outcome unit * Page :=
  alive (fun p => if among l (controls p) then (Ok tt, p)
                  else (Raise timeout_error, p)).

Definition with_url (u : string) (p : Page) : Page :=
  mkPage u (signed_in p) (password_ok p) (offline p) (closed p) (two_sign_in p)
         (cards p) (reachable p) (disk_full p) (files p).

Definition with_session (p : Page) : Page :=
  mkPage FEED_URL true (password_ok p) (offline p) (closed p) (two_sign_in p)
         (cards p) (reachable p) (disk_full p) (files p).

Definition with_closed (p : Page) : Page :=
  mkPage (url p) (signed_in p) (password_ok p) (offline p) true (two_sign_in p)
         (cards p) (reachable p) (disk_full p) (files p).

Definition with_file (f : string) (p : Page) : Page :=
  mkPage (url p) (signed_in p) (password_ok p) (offline p) (closed p)
         (two_sign_in p) (cards p) (reachable p) (disk_full p) (files p ++ [f]).

(** A visitor who is not signed in is sent to the home page, except from
    the login page. *)
Definition sim_goto (u : string) : Page -> Outcome unit * Page :=
  alive (fun p =>
    if offline p then (Raise net_error, p)
    else if signed_in p || String.eqb u LOGIN_URL then (Ok tt, with_url u p)
    else (Ok tt, with_url HOME_URL p)).

(** Clicking "Sign in" on the login form opens the session when the site
    accepts the credentials. *)
Definition sim_click (l : Locator) : Page -> Outcome unit * Page :=
  alive (fun p =>
    if among l (controls p) then
      if negb (signed_in p) && String.eqb (url p) LOGIN_URL && password_ok p
         && locator_eqb l (ByRole "button" "Sign in" true)
      then (Ok tt, with_session p)
      else (Ok tt, p)
    else (Raise timeout_error, p)).

Definition sim_is_visible (l : Locator) : Page -> Outcome bool * Page :=
  alive (fun p =>
    if ambiguous l p then (Raise strict_error, p)
    else (Ok (among l (controls p)), p)).

Definition read_card_field {A} (field : Card -> Outcome A) (l : Locator)
  : Page -> Outcome A * Page :=
  alive (fun p =>
    match l with
    | Within (Item _ i) _ =>
        match nth_error (cards p) i with
        | Some c => (field c, p)
        | None => (Raise timeout_error, p)
        end
    | _ => (Raise timeout_error, p)
    end).

Definition sim_screenshot (f : string) : Page -> Outcome unit * Page :=
  alive (fun p =>
    if disk_full p then (Raise disk_error, p) else (Ok tt, with_file f p)).

Definition sim_all (l : Locator) : Page -> Outcome (list Locator) * Page :=
  alive (fun p => (Ok (map (Item l) (seq 0 (List.length (cards p)))), p)).

Definition idle : Page -> Outcome unit * Page :=
  alive (fun p => (Ok tt, p)).

Definition driver : PageDriver := {|
  World := Page;
  page_url := url;
  playwright_start := fun p => (Ok tt, p);
  playwright_stop := fun p => p;
  launch := fun p => (Ok tt, p);
  new_page := fun p => (Ok tt, p);
  browser_close := fun p => (Ok tt, with_closed p);
  goto := sim_goto;
  is_visible := fun l _ => sim_is_visible l;
  wait_for := fun l _ => act l;
  fill := fun l _ => act l;
  click := sim_click;
  expect_to_be_visible := fun l _ => act l;
  screenshot := sim_screenshot;
  pause := idle;
  keyboard_press := fun _ => idle;
  wait_for_timeout := fun _ => idle;
  locator_all := sim_all;
  get_attribute := fun l _ => read_card_field card_alt l;
  inner_text := fun l => read_card_field card_status l
|}.

(** A fresh browser, before any navigation. *)
Definition fresh (is_member accepts : bool) (cs : list Card) (names : list string)
  : Page :=
  mkPage "about:blank" is_member accepts false false false cs names false [].

End Sim.

(** ** Pages used as examples *)

Module Pages.
Import Sim.

(** Signed in, on the feed. *)
Definition feed : Page :=
  with_url FEED_URL (fresh true true [] []).

(** A signed-in page that is not the feed. *)
Definition my_network : Page :=
  with_url "https://www.linkedin.com/mynetwork/" (fresh true true [] []).

(** The signed-out home page: one "Sign in" button, one "Join now" link. *)
Definition signed_out : Page :=
  with_url HOME_URL (fresh false true [] []).

(** A signed-out home page with a "Sign in" button in the header and one in
    the body, and a "Join now" link: the "Sign in" locator matches both
    buttons, and a strict locator raises on it. *)
Definition two_sign_in_buttons : Page :=
  mkPage HOME_URL false true false false true [] [] false [].

(** Not signed in, and the site turns the credentials down: after the
    click the login form stays, and no "Messaging" link ever shows. *)
Definition rejected : Page :=
  fresh false false [] [].

(** The same visitor, on the login form. *)
Definition rejected_on_form : Page :=
  with_url LOGIN_URL rejected.

(** The same, with no room left for a screenshot. *)
Definition rejected_disk_full : Page :=
  mkPage "about:blank" false false false false false [] [] true [].

(** Not signed in, and the network is down. *)
Definition unplugged : Page :=
  mkPage "about:blank" false true true false false [] [] false [].

(** A fresh browser of a visitor who is not signed in and whose
    credentials the site accepts. *)
Definition visitor : Page :=
  fresh false true [] [].

(** Three result cards as the specification's scenario has them. *)
Definition scenario_cards : list Card :=
  [ mkCard (Ok (Some "Alice A")) (Ok "Status is online");
    mkCard (Ok (Some "Bob B")) (Ok "");
    mkCard (Ok (Some "Carol C")) (Ok "Status: away") ].

(** A signed-in results page showing the scenario's cards. *)
Definition scenario : Page :=
  with_url FEED_URL (fresh true true scenario_cards ["Alice A"; "Bob B"; "Carol C"]).

(** Result cards of which one has an image without alt attribute and one
    an image whose alt attribute is empty. *)
Definition nameless_cards : list Card :=
  [ mkCard (Ok (Some "Alice A")) (Ok "Status is online");
    mkCard (Ok None) (Ok "Status is online");
    mkCard (Ok (Some "")) (Ok "Status: away") ].

Definition nameless : Page :=
  with_url FEED_URL (fresh true true nameless_cards ["Alice A"]).

(** Result cards of which the second has no image and the third no status
    text to read: these reads raise. *)
Definition broken_cards : list Card :=
  [ mkCard (Ok (Some "Alice A")) (Ok "Status is online");
    mkCard (Raise timeout_error) (Ok "Status is online");
    mkCard (Ok (Some "Dan D")) (Raise timeout_error);
    mkCard (Ok (Some "Carol C")) (Ok "Status: away") ].

Definition broken : Page :=
  with_url FEED_URL (fresh true true broken_cards ["Alice A"; "Carol C"]).

(** Result cards whose names have two characters each, as a full name
    written in two Chinese characters has. *)
Definition short_name_cards : list Card :=
  [ mkCard (Ok (Some "Bo")) (Ok "Status is online");
    mkCard (Ok (Some "Li")) (Ok "Status: away") ].

Definition short_names : Page :=
  with_url FEED_URL (fresh true true short_name_cards ["Bo"; "Li"]).

(** The scenario's page, on which Alice's card has no "Message" button. *)
Definition alice_unreachable : Page :=
  with_url FEED_URL (fresh true true scenario_cards ["Bob B"; "Carol C"]).

(** A results page with a single active card. *)
Definition one_active : Page :=
  with_url FEED_URL
    (fresh true true
       [ mkCard (Ok (Some "Bob B")) (Ok "");
         mkCard (Ok (Some "Carol C")) (Ok "Status: away") ]
       ["Bob B"; "Carol C"]).

(** A results page with three active cards, each with its "Message"
    button. *)
Definition all_active : Page :=
  with_url FEED_URL
    (fresh true true
       [ mkCard (Ok (Some "Alice A")) (Ok "Status is online");
         mkCard (Ok (Some "Bob B")) (Ok "Status is online");
         mkCard (Ok (Some "Carol C")) (Ok "Status: away") ]
       ["Alice A"; "Bob B"; "Carol C"]).

Definition someone : Env :=
  mkEnv (Some "ada@example.com") (Some "correct horse battery").

End Pages.

(** ** The properties as the specification words them *)

(** "For all pages exposing a visible Sign in or Join now affordance and
    not on the landing URL, detect returns Unauthenticated." *)
Definition logged_out_when_affordance_visible
    (drv : PageDriver) (w : World drv) : Prop :=
  str_in "/feed" (page_url drv w) = false ->
  sign_in_probe drv w = Ok true \/ join_now_probe drv w = Ok true ->
  outcome (is_logged_in drv w) = Ok false.

(** What the [except] block of [login] logs when its screenshot and its
    pause complete. *)
Definition failure_report (e : Exception) : list Event :=
  [ Print "ERROR: Login attempt failed.";
    Print "Check the screenshot and error message below to debug.";
    Print ("DEBUG: The specific error was: " ++ exn_text e)%string;
    Called (CScreenshot "login_error.png");
    Print "A screenshot has been saved to 'login_error.png'";
    Called CPause ].

(** "Any exception during the sequence is caught once at the outer
    boundary; on failure the flow captures a diagnostic screenshot to a
    fixed path, suspends for manual operator intervention, and returns
    failure." *)
Definition login_contains_failures
    (drv : PageDriver) (email password : PyVal) (w : World drv) : Prop :=
  (forall e, outcome (login drv email password w) <> Raise e)
  /\ (outcome (login drv email password w) = Ok false ->
      In (Called (CScreenshot "login_error.png")) (log (login drv email password w))
      /\ In (Called CPause) (log (login drv email password w))).

(** A credential shows in full in a printed line. *)
Definition logged_in_full (credential : PyVal) (tr : list Event) : Prop :=
  exists s line,
    credential = Some s /\ In (Print line) tr /\ str_in s line = true.

(** "Credentials: opaque to the core beyond being passed to the login form;
    never logged in full." *)
Definition credentials_never_logged
    (drv : PageDriver) (env : Env) (w : World drv) : Prop :=
  ~ logged_in_full (LINKEDIN_EMAIL env) (log (main_demonstration drv env w))
  /\ ~ logged_in_full (LINKEDIN_PASSWORD env) (log (main_demonstration drv env w)).

(** The texts the program prints as they stand in main.py. *)
Definition fixed_lines : list string :=
  [ "INFO: Currently on the feed page. User is logged in.";
    "INFO: Found 'Sign in' or 'Join now' elements. User is logged out.";
    "INFO: Did not find explicit login prompts, assuming user is logged in.";
    "INFO: Navigating to LinkedIn login page...";
    "INFO: Locating the email field using its ID...";
    "INFO: Locating and filling password field...";
    "INFO: Clicking 'Sign in'...";
    "INFO: Waiting for login confirmation...";
    "SUCCESS: Login successful!";
    "ERROR: Login attempt failed.";
    "Check the screenshot and error message below to debug.";
    "A screenshot has been saved to 'login_error.png'";
    "Searching for People to connect ";
    "INFO: Filling out company: Amazon";
    "Found Company...";
    "Searching for people.....";
    "Demonstration finished. Keeping browser open...";
    "applying People Filters.....";
    "Profiles with Status found....";
    "User is not logged in. Attempting login...";
    "User is already logged in. No action needed.";
    "Company search completed" ].

(** The exception [e] was raised by one of the driver calls of the login
    form: the wait for the identifier field, a fill, the click, the wait for
    the "Messaging" link. *)
Definition raised_by_form (drv : PageDriver) (env : Env) (e : Exception) : Prop :=
  exists w : World drv,
    fst (wait_for drv USERNAME_FIELD 10000 w) = Raise e
    \/ fst (fill drv USERNAME_FIELD (LINKEDIN_EMAIL env) w) = Raise e
    \/ fst (fill drv PASSWORD_FIELD (LINKEDIN_PASSWORD env) w) = Raise e
    \/ fst (click drv SIGN_IN_BUTTON w) = Raise e
    \/ fst (expect_to_be_visible drv MESSAGING_LINK 60000 w) = Raise e.

(** What a printed line can be: one of the fixed texts, the line that shows
    the identifier, or the line that shows the text of the exception caught
    by [login]. *)
Definition printed_as_written (drv : PageDriver) (env : Env) (line : string)
  : Prop :=
  In line fixed_lines
  \/ line = ("INFO: Filling out email: " ++ py_str (LINKEDIN_EMAIL env))%string
  \/ exists e,
       raised_by_form drv env e
       /\ line = ("DEBUG: The specific error was: " ++ exn_text e)%string.

(** Every line printed in the log satisfies [P]. *)
Definition prints (P : string -> Prop) (tr : list Event) : Prop :=
  forall line, In (Print line) tr -> P line.

(** Every line the computation prints, on whatever page, satisfies [P]. *)
Definition Prints {W A : Type} (P : string -> Prop) (m : M W A) : Prop :=
  forall w, prints P (log (m w)).

(** *** Cards, read on a page that stands still *)

(** What reading the alt text of the card's image gives on page [w]. *)
Definition alt_of (drv : PageDriver) (w : World drv) (card : Locator)
  : Outcome PyVal :=
  fst (get_attribute drv (Within card "img.presence-entity__image") "alt" w).

(** What reading the card's hidden status text gives on page [w]. *)
Definition status_of (drv : PageDriver) (w : World drv) (card : Locator)
  : Outcome string :=
  fst (inner_text drv (Within card "span.visually-hidden") w).

(** Reading the page does not change it. *)
Definition still (drv : PageDriver) (w : World drv) : Prop :=
  (forall l a, snd (get_attribute drv l a w) = w)
  /\ (forall l, snd (inner_text drv l w) = w).

(** The status text is non-empty and contains "Status". *)
Definition has_status (text : string) : bool :=
  negb (String.eqb text "") && str_in "Status" text.

(** The card yields a name (the read does not raise) and a status text
    that passes the check. *)
Definition qualifies (drv : PageDriver) (w : World drv) (card : Locator) : bool :=
  match alt_of drv w card, status_of drv w card with
  | Ok _, Ok text => has_status text
  | _, _ => false
  end.

(** The name the card is listed under: the alt attribute as read, [None]
    when the image has no alt attribute. *)
Definition name_of (drv : PageDriver) (w : World drv) (card : Locator) : PyVal :=
  match alt_of drv w card with
  | Ok name => name
  | Raise _ => None
  end.

(** A name that is there and is not the empty string. *)
Definition nonempty_name (v : PyVal) : Prop :=
  exists s, v = Some s /\ s <> "".

(** "Cards with unreadable displayName are excluded, never included with an
    empty name." *)
Definition extract_names_nonempty (drv : PageDriver) (w : World drv) : Prop :=
  forall results,
    outcome (extract drv w) = Ok results -> Forall nonempty_name results.

(** *** The two shapes: names out of the search, pairs into [message_person] *)

(** [name, link = item] goes through: the item is a string of exactly two
    characters. *)
Definition unpacks (item : PyVal) : bool :=
  match item with
  | Some (String _ (String _ EmptyString)) => true
  | _ => false
  end.

(** What [name] is bound to when the item unpacks: its first character. *)
Definition first_of (item : PyVal) : string :=
  match item with
  | Some (String a _) => String a EmptyString
  | _ => EmptyString
  end.

(** The items [message_person] gets through before the first one that does
    not unpack. *)
Fixpoint processed (people : list PyVal) : list PyVal :=
  match people with
  | [] => []
  | item :: rest => if unpacks item then item :: processed rest else []
  end.

(** "For every non-empty list returned by people_search, applying
    message_person to it raises an unpacking error." *)
Definition shapes_incompatible (drv : PageDriver) (w : World drv) : Prop :=
  forall results,
    outcome (people_search drv w) = Ok results ->
    results <> [] ->
    exists e,
      outcome (message_person drv results (final (people_search drv w))) = Raise e.

(** *** Dispatch against extraction *)

(** "The number of dispatch invocations equals the number of extracted
    profiles with an active status, and the dispatches are issued one per
    such profile, for exactly those names, in extraction order."  The
    extracted names are the list [people_search] prints before it returns
    it. *)
Definition dispatch_matches_extraction
    (drv : PageDriver) (env : Env) (w : World drv) : Prop :=
  forall found,
    printed_lists (log (main_demonstration drv env w)) = [found] ->
    dispatched (log (main_demonstration drv env w)) = found.

(** A log with no dispatch and no printed list in it. *)
Definition quiet (tr : list Event) : Prop :=
  dispatched tr = [] /\ printed_lists tr = [].

(** A computation that neither dispatches nor prints a list. *)
Definition Quiet {W A : Type} (m : M W A) : Prop :=
  forall w, quiet (log (m w)).

(** The card [card] was read as one with an active status, under the name
    [name]: the alt text of its image read as [name], its status text read
    non-empty, and read again it had "Status" in it. *)
Definition read_as_active (drv : PageDriver) (card : Locator) (name : PyVal)
  : Prop :=
  exists (w1 w2 w3 w4 : World drv) (first second : string),
    get_attribute drv (Within card "img.presence-entity__image") "alt" w1
    = (Ok name, w2)
    /\ inner_text drv (Within card "span.visually-hidden") w2 = (Ok first, w3)
    /\ first <> EmptyString
    /\ inner_text drv (Within card "span.visually-hidden") w3 = (Ok second, w4)
    /\ str_in "Status" second = true.

(** The turn of [person] in the loop of [main_demonstration] runs to its
    end, from [w] to [w']: the name is a string, and the click on the
    button "Message <name>", the pause and the closing of the browser all
    return. *)
Definition turn_completes (drv : PageDriver) (person : PyVal)
    (w w' : World drv) : Prop :=
  exists (s : string) (w1 w2 : World drv),
    person = Some s
    /\ click drv (ByRole "button" ("Message " ++ s)%string true) w = (Ok tt, w1)
    /\ pause drv w1 = (Ok tt, w2)
    /\ browser_close drv w2 = (Ok tt, w').

(** [served drv w found called]: started in [w] on the names [found], the
    loop calls [people_message] for the names [called].  The first name is
    always called; the next one is called when, and only when, the turn of
    the one before it has run to its end. *)
Inductive served (drv : PageDriver)
  : World drv -> list PyVal -> list PyVal -> Prop :=
| served_none (w : World drv) : served drv w [] []
| served_stop (w : World drv) (person : PyVal) (rest : list PyVal) :
    (forall w', ~ turn_completes drv person w w') ->
    served drv w (person :: rest) [person]
| served_next (w w' : World drv) (person : PyVal) (rest called : list PyVal) :
    turn_completes drv person w w' ->
    served drv w' rest called ->
    served drv w (person :: rest) (person :: called).

(** In the run [r], the dispatches follow the extraction.  Either the run
    ended in an exception before [extract] had returned, and nothing was
    printed as found and nothing dispatched; or [extract] ran on the cards
    [cards] and returned [found], each name of which was read from one of
    these cards as one with an active status, the run printed [found], and
    the calls of [people_message] are those of the loop started on [found]
    where [extract] left off. *)
Definition dispatch_follows (drv : PageDriver) (r : Run (World drv) unit) : Prop :=
  ((exists e, outcome r = Raise e) /\ quiet (log r))
  \/ exists (w0 w1 : World drv) (cards : list Locator) (found : list PyVal),
       locator_all drv PROFILE_CARDS w0 = (Ok cards, w1)
       /\ outcome (extract drv w0) = Ok found
       /\ Forall (fun name => exists card,
                    In card cards /\ read_as_active drv card name) found
       /\ printed_lists (log r) = [found]
       /\ served drv (final (extract drv w0)) found (dispatched (log r)).

(** ** A driver whose fill errors quote the value *)

(** The simulated site with a password field that is not editable.  A fill
    of it ends in a timeout whose call log quotes the value being filled,
    as the call log of Playwright's [fill] does. *)
Module Quoting.
Import Sim.

Definition fill_error (v : PyVal) : Exception :=
  mkExn DriverError
        ("Locator.fill: Timeout 30000ms exceeded. Call log: fill("
         ++ dquote ++ py_str v ++ dquote
         ++ "); element is not editable")%string.

Definition quoting_fill (l : Locator) (v : PyVal) : Page -> Outcome unit * Page :=
  alive (fun p =>
    if locator_eqb l (ByLabel "Password") then (Raise (fill_error v), p)
    else if among l (controls p) then (Ok tt, p)
         else (Raise timeout_error, p)).

Definition driver : PageDriver := {|
  World := Page;
  page_url := url;
  playwright_start := playwright_start Sim.driver;
  playwright_stop := playwright_stop Sim.driver;
  launch := launch Sim.driver;
  new_page := new_page Sim.driver;
  browser_close := browser_close Sim.driver;
  goto := sim_goto;
  is_visible := fun l _ => sim_is_visible l;
  wait_for := fun l _ => act l;
  fill := quoting_fill;
  click := sim_click;
  expect_to_be_visible := fun l _ => act l;
  screenshot := sim_screenshot;
  pause := idle;
  keyboard_press := fun _ => idle;
  wait_for_timeout := fun _ => idle;
  locator_all := sim_all;
  get_attribute := fun l _ => read_card_field card_alt l;
  inner_text := fun l => read_card_field card_status l
|}.

End Quoting.

(** ** More observations: the driver calls of a run *)

(** The driver calls issued, in order. *)
Fixpoint calls (tr : list Event) : list Call :=
  match tr with
  | [] => []
  | Called c :: rest => c :: calls rest
  | _ :: rest => calls rest
  end.

(** Every driver call in the log satisfies [P]. *)
Definition only (P : Call -> Prop) (tr : list Event) : Prop :=
  forall c, In (Called c) tr -> P c.

(** Every driver call the computation issues, on whatever page, satisfies
    [P]. *)
Definition Only {W A : Type} (P : Call -> Prop) (m : M W A) : Prop :=
  forall w, only P (log (m w)).

(** The driver calls of the [try] block of [login], in the order of the
    source. *)
Definition login_script (email password : PyVal) : list Call :=
  [ CWaitFor USERNAME_FIELD 10000;
    CFill USERNAME_FIELD email;
    CFill PASSWORD_FIELD password;
    CClick SIGN_IN_BUTTON;
    CExpectVisible MESSAGING_LINK 60000 ].

(** The driver calls of [company_search], in the order of the source. *)
Definition search_script (company : string) : list Call :=
  [ CClick (ByRole "combobox" "Search" true);
    CFill (ByRole "combobox" "Search" false) (Some company);
    CPress "Enter";
    CWaitForTimeout 3000 ].

(** The driver calls of the filter steps of [people_search], in the order of
    the source. *)
Definition filter_script : list Call :=
  [ CExpectVisible (ByRole "button" "All filters" false) 3000;
    CClick (ByRole "button" "All filters" false);
    CClick (ByRole "button" "1st" true);
    CClick (ByRole "button" "Apply current filters to show results" true);
    CWaitForTimeout 3000 ].

(** A call that reads a card, or enumerates the cards: what the extraction
    pass may issue. *)
Definition reads_cards (cards : list Locator) (c : Call) : Prop :=
  c = CAll PROFILE_CARDS
  \/ exists card,
       In card cards
       /\ (c = CGetAttribute (Within card "img.presence-entity__image") "alt"
           \/ c = CInnerText (Within card "span.visually-hidden")).

(** The calls of [people_message] that come after a call of
    [browser.close()]; [closed] tells whether one has come already. *)
Fixpoint dispatched_after_close (closed : bool) (tr : list Event) : list PyVal :=
  match tr with
  | [] => []
  | Called CClose :: rest => dispatched_after_close true rest
  | Dispatch person :: rest =>
      if closed then person :: dispatched_after_close closed rest
      else dispatched_after_close closed rest
  | _ :: rest => dispatched_after_close closed rest
  end.

(** A call that belongs to [login] alone: the navigation to the login page,
    a fill of the identifier or of the password field, a screenshot. *)
Definition login_call (c : Call) : Prop :=
  c = CGoto "https://www.linkedin.com/login"
  \/ (exists v, c = CFill USERNAME_FIELD v)
  \/ (exists v, c = CFill PASSWORD_FIELD v)
  \/ (exists path, c = CScreenshot path).

(** What the program may type, and where: the identifier into the
    identifier field, the secret into the password field, the company into
    the search box. *)
Definition fills_as_configured (env : Env) (c : Call) : Prop :=
  forall l v,
    c = CFill l v ->
    (l = USERNAME_FIELD /\ v = LINKEDIN_EMAIL env)
    \/ (l = PASSWORD_FIELD /\ v = LINKEDIN_PASSWORD env)
    \/ (l = ByRole "combobox" "Search" false /\ v = Some COMPANY_TO_SEARCH).

(** A screenshot goes to the one fixed path. *)
Definition screenshot_at_fixed_path (c : Call) : Prop :=
  forall path, c = CScreenshot path -> path = "login_error.png".

(** The call sites of the program: every driver call written in main.py,
    with the values it is given. *)
Definition issued (env : Env) (c : Call) : Prop :=
  In c ([ CStart; CStop; CLaunch; CNewPage; CClose; CPause;
          CGoto "https://www.linkedin.com/feed/";
          CGoto "https://www.linkedin.com/login";
          CIsVisible SIGN_IN_BUTTON 2000; CIsVisible JOIN_NOW_LINK 2000;
          CScreenshot "login_error.png"; CAll PROFILE_CARDS ]
        ++ login_script (LINKEDIN_EMAIL env) (LINKEDIN_PASSWORD env)
        ++ search_script COMPANY_TO_SEARCH
        ++ filter_script)
  \/ (exists card,
        c = CGetAttribute (Within card "img.presence-entity__image") "alt"
        \/ c = CInnerText (Within card "span.visually-hidden"))
  \/ (exists name, c = CClick (ByRole "button" ("Message " ++ name)%string true)).

(** The result cards the page hands out when they are enumerated on [w];
    none when the enumeration raises. *)
Definition enumerated (drv : PageDriver) (w : World drv) : list Locator :=
  match fst (locator_all drv PROFILE_CARDS w) with
  | Ok cards => cards
  | Raise _ => []
  end.

(** * Properties *)

(** ** Runs: how [bind], [try_except] and [finally] compose *)

Section RunLemmas.

Context {W A B : Type}.

Lemma bind_ok (m : M W A) (k : A -> M W B) (w : W) (a : A) :
  outcome (m w) = Ok a ->
  bind m k w =
    mkRun (outcome (k a (final (m w)))) (final (k a (final (m w))))
          (log (m w) ++ log (k a (final (m w)))).
Proof.
  unfold bind. destruct (m w) as [o w1 l1]. cbn [outcome final log].
  intros ->. now destruct (k a w1).
Qed.

Lemma bind_raise (m : M W A) (k : A -> M W B) (w : W) (e : Exception) :
  outcome (m w) = Raise e ->
  bind m k w = mkRun (Raise e) (final (m w)) (log (m w)).
Proof.
  unfold bind. destruct (m w) as [o w1 l1]. cbn [outcome final log].
  now intros ->.
Qed.

Lemma try_except_ok (m : M W A) (h : Exception -> M W A) (w : W) (a : A) :
  outcome (m w) = Ok a -> try_except m h w = m w.
Proof.
  unfold try_except. destruct (m w) as [o w1 l1]. cbn [outcome].
  now intros ->.
Qed.

Lemma try_except_raise (m : M W A) (h : Exception -> M W A) (w : W) (e : Exception) :
  outcome (m w) = Raise e ->
  try_except m h w =
    mkRun (outcome (h e (final (m w)))) (final (h e (final (m w))))
          (log (m w) ++ log (h e (final (m w)))).
Proof.
  unfold try_except. destruct (m w) as [o w1 l1]. cbn [outcome final log].
  intros ->. now destruct (h e w1).
Qed.

Lemma call_ok (c : Call) (op : W -> Outcome A * W) (w w' : W) (o : Outcome A) :
  op w = (o, w') -> call c op w = mkRun o w' [Called c].
Proof. intros H. unfold call. rewrite H. reflexivity. Qed.

(** The log of a sequence starts with the log of its first part. *)
Lemma log_bind (m : M W A) (k : A -> M W B) (w : W) :
  exists rest, log (bind m k w) = log (m w) ++ rest.
Proof.
  unfold bind. destruct (m w) as [[a|e] w1 l1]; cbn [log].
  - destruct (k a w1) as [o w2 l2]. now exists l2.
  - exists []. now rewrite app_nil_r.
Qed.

End RunLemmas.

Lemma dispatched_app (a b : list Event) :
  dispatched (a ++ b) = dispatched a ++ dispatched b.
Proof.
  induction a as [|e a IH]; [reflexivity|].
  destruct e; cbn [dispatched app]; now rewrite ?IH.
Qed.

Lemma printed_lists_app (a b : list Event) :
  printed_lists (a ++ b) = printed_lists a ++ printed_lists b.
Proof.
  induction a as [|e a IH]; [reflexivity|].
  destruct e; cbn [printed_lists app]; now rewrite ?IH.
Qed.

Section LogLemmas.

Context {W A B : Type}.

Lemma in_log_bind_l (m : M W A) (k : A -> M W B) (w : W) (ev : Event) :
  In ev (log (m w)) -> In ev (log (bind m k w)).
Proof.
  intros Hin. destruct (log_bind m k w) as [rest ->].
  apply in_or_app. now left.
Qed.

Lemma in_log_bind_r (m : M W A) (k : A -> M W B) (w : W) (a : A) (ev : Event) :
  outcome (m w) = Ok a ->
  In ev (log (k a (final (m w)))) -> In ev (log (bind m k w)).
Proof.
  intros Hok Hin. rewrite (bind_ok m k w a Hok). cbn [log].
  apply in_or_app. now right.
Qed.

Lemma in_log_try_l (m : M W A) (h : Exception -> M W A) (w : W) (ev : Event) :
  In ev (log (m w)) -> In ev (log (try_except m h w)).
Proof.
  unfold try_except. destruct (m w) as [[a|e] w1 l1]; cbn [log]; [easy|].
  destruct (h e w1) as [o w2 l2]. cbn [log]. intros Hin.
  apply in_or_app. now left.
Qed.

End LogLemmas.

(** ** Session detection *)

Lemma is_logged_in_on_feed (drv : PageDriver) (w : World drv) :
  str_in "/feed" (page_url drv w) = true ->
  is_logged_in drv w =
    mkRun (Ok true) w [Print "INFO: Currently on the feed page. User is logged in."].
Proof.
  intros Hfeed. unfold is_logged_in. rewrite Hfeed. reflexivity.
Qed.

(** Off the feed, the answer is decided by the two probes alone. *)
Lemma is_logged_in_off_feed (drv : PageDriver) (w : World drv) :
  str_in "/feed" (page_url drv w) = false ->
  outcome (is_logged_in drv w) =
    match sign_in_probe drv w with
    | Ok true => Ok false
    | Ok false =>
        match join_now_probe drv w with
        | Ok true => Ok false
        | _ => Ok true
        end
    | Raise _ => Ok true
    end.
Proof.
  intros Hfeed. unfold is_logged_in, sign_in_probe, join_now_probe.
  rewrite Hfeed.
  unfold bind, try_except, call, print, emit, ret.
  destruct (is_visible drv SIGN_IN_BUTTON 2000 w) as [[[|]|e] w1]; simpl;
    try reflexivity.
  destruct (is_visible drv JOIN_NOW_LINK 2000 w1) as [[[|]|e] w2]; reflexivity.
Qed.

Lemma is_logged_in_returns (drv : PageDriver) (w : World drv) :
  exists b, outcome (is_logged_in drv w) = Ok b.
Proof.
  destruct (str_in "/feed" (page_url drv w)) eqn:Hfeed.
  - rewrite (is_logged_in_on_feed drv w Hfeed). now exists true.
  - rewrite (is_logged_in_off_feed drv w Hfeed).
    destruct (sign_in_probe drv w) as [[|]|]; eauto.
    destruct (join_now_probe drv w) as [[|]|]; eauto.
Qed.

(** C5.  On a page whose URL contains "/feed", [is_logged_in] returns
    [True] at once: it prints one line, leaves the page as it is and issues
    no driver call, so neither logged-out probe is evaluated. *)
Theorem is_logged_in_feed_short_circuit (drv : PageDriver) (w : World drv) :
  str_in "/feed" (page_url drv w) = true ->
  outcome (is_logged_in drv w) = Ok true
  /\ final (is_logged_in drv w) = w
  /\ probes (log (is_logged_in drv w)) = []
  /\ (forall c, ~ In (Called c) (log (is_logged_in drv w))).
Proof.
  intros Hfeed. rewrite (is_logged_in_on_feed drv w Hfeed). simpl.
  repeat split. intros c [H | []]. discriminate H.
Qed.

(** C6, as amended.  Off the feed, [is_logged_in] returns [False] exactly
    when the "Sign in" probe answers visible, or answers not visible without
    raising and the "Join now" probe then answers visible. *)
Theorem is_logged_in_logged_out (drv : PageDriver) (w : World drv) :
  str_in "/feed" (page_url drv w) = false ->
  (outcome (is_logged_in drv w) = Ok false <->
   sign_in_probe drv w = Ok true
   \/ (sign_in_probe drv w = Ok false /\ join_now_probe drv w = Ok true)).
Proof.
  intros Hfeed. rewrite (is_logged_in_off_feed drv w Hfeed).
  destruct (sign_in_probe drv w) as [[|]|e1].
  - split; [now left|reflexivity].
  - destruct (join_now_probe drv w) as [[|]|e2]; split;
      try (intros [H|[_ H]]; discriminate H); try discriminate.
    + intros _. right. now split.
    + reflexivity.
  - split; [discriminate|]. intros [H|[H _]]; discriminate H.
Qed.

(** C7.  Off the feed, [is_logged_in] never lets an exception out, and it
    returns [True] when a probe raises (the first one, or the second one
    once the first has answered not visible) and when both probes answer
    not visible. *)
Theorem is_logged_in_fail_open (drv : PageDriver) (w : World drv) :
  str_in "/feed" (page_url drv w) = false ->
  (forall e, outcome (is_logged_in drv w) <> Raise e)
  /\ ((exists e, sign_in_probe drv w = Raise e)
      \/ (sign_in_probe drv w = Ok false
          /\ exists e, join_now_probe drv w = Raise e)
      \/ (sign_in_probe drv w = Ok false /\ join_now_probe drv w = Ok false) ->
      outcome (is_logged_in drv w) = Ok true).
Proof.
  intros Hfeed. split.
  - intros e He. destruct (is_logged_in_returns drv w) as [b Hb]. congruence.
  - rewrite (is_logged_in_off_feed drv w Hfeed).
    intros [[e H1] | [[H1 [e H2]] | [H1 H2]]]; rewrite H1; try reflexivity;
      rewrite H2; reflexivity.
Qed.

(** The answer depends on the URL and on the answers of the probes alone. *)
Lemma is_logged_in_same_observations (drv : PageDriver) (w w' : World drv) :
  unchanged drv w w' ->
  outcome (is_logged_in drv w') = outcome (is_logged_in drv w).
Proof.
  intros [Hurl [Hsign Hjoin]].
  destruct (str_in "/feed" (page_url drv w)) eqn:Hfeed.
  - rewrite (is_logged_in_on_feed drv w Hfeed).
    rewrite <- Hurl in Hfeed. now rewrite (is_logged_in_on_feed drv w' Hfeed).
  - rewrite (is_logged_in_off_feed drv w Hfeed).
    rewrite <- Hurl in Hfeed. rewrite (is_logged_in_off_feed drv w' Hfeed).
    now rewrite Hsign, Hjoin.
Qed.

(** C9.  When the page is unchanged between the two calls (at the second
    call it has the URL and gives the probes the answers it had at the
    first), two calls of [is_logged_in] in a row return the same answer. *)
Theorem is_logged_in_idempotent (drv : PageDriver) (w : World drv) :
  unchanged drv w (final (is_logged_in drv w)) ->
  exists b,
    outcome ((first <- is_logged_in drv;;
              second <- is_logged_in drv;;
              ret (first, second)) w) = Ok (b, b).
Proof.
  intros Hsame. destruct (is_logged_in_returns drv w) as [b Hb].
  exists b. rewrite (bind_ok _ _ _ _ Hb). cbn [outcome].
  pose proof (is_logged_in_same_observations drv w _ Hsame) as Hagain.
  rewrite Hb in Hagain. now rewrite (bind_ok _ _ _ _ Hagain).
Qed.

Lemma is_logged_in_feed_short_circuit_witness :
  str_in "/feed" (page_url Sim.driver Pages.feed) = true
  /\ outcome (is_logged_in Sim.driver Pages.feed) = Ok true
  /\ final (is_logged_in Sim.driver Pages.feed) = Pages.feed
  /\ probes (log (is_logged_in Sim.driver Pages.feed)) = []
  /\ (forall c, ~ In (Called c) (log (is_logged_in Sim.driver Pages.feed))).
Proof.
  split; [reflexivity|].
  apply (is_logged_in_feed_short_circuit Sim.driver Pages.feed). reflexivity.
Defined.

Lemma is_logged_in_logged_out_witness :
  str_in "/feed" (page_url Sim.driver Pages.signed_out) = false
  /\ sign_in_probe Sim.driver Pages.signed_out = Ok true
  /\ outcome (is_logged_in Sim.driver Pages.signed_out) = Ok false.
Proof.
  split; [reflexivity|]. split; [reflexivity|].
  apply (is_logged_in_logged_out Sim.driver Pages.signed_out).
  - reflexivity.
  - left. reflexivity.
Defined.

(** With two "Sign in" buttons on the page the first probe raises, the
    "Join now" link is never probed although it is visible, and the answer
    is [True]. *)
Lemma logged_out_when_affordance_visible_counterexample :
  ~ logged_out_when_affordance_visible Sim.driver Pages.two_sign_in_buttons.
Proof.
  intros H.
  assert (Hrun : outcome (is_logged_in Sim.driver Pages.two_sign_in_buttons)
                 = Ok false).
  { apply H; [reflexivity | right; reflexivity]. }
  vm_compute in Hrun. discriminate Hrun.
Qed.

Lemma is_logged_in_fail_open_witness :
  str_in "/feed" (page_url Sim.driver Pages.two_sign_in_buttons) = false
  /\ sign_in_probe Sim.driver Pages.two_sign_in_buttons = Raise Sim.strict_error
  /\ (forall e, outcome (is_logged_in Sim.driver Pages.two_sign_in_buttons) <> Raise e)
  /\ outcome (is_logged_in Sim.driver Pages.two_sign_in_buttons) = Ok true
  /\ str_in "/feed" (page_url Sim.driver Pages.my_network) = false
  /\ sign_in_probe Sim.driver Pages.my_network = Ok false
  /\ join_now_probe Sim.driver Pages.my_network = Ok false
  /\ outcome (is_logged_in Sim.driver Pages.my_network) = Ok true.
Proof.
  destruct (is_logged_in_fail_open Sim.driver Pages.two_sign_in_buttons eq_refl)
    as [Hno Htrue].
  destruct (is_logged_in_fail_open Sim.driver Pages.my_network eq_refl)
    as [_ Htrue'].
  split; [reflexivity|]. split; [reflexivity|].
  split; [exact Hno|]. split.
  - apply Htrue. left. exists Sim.strict_error. reflexivity.
  - split; [reflexivity|]. split; [reflexivity|]. split; [reflexivity|].
    apply Htrue'. right. right. split; reflexivity.
Defined.

Lemma is_logged_in_idempotent_witness :
  unchanged Sim.driver Pages.signed_out
            (final (is_logged_in Sim.driver Pages.signed_out))
  /\ exists b,
       outcome ((first <- is_logged_in Sim.driver;;
                 second <- is_logged_in Sim.driver;;
                 ret (first, second)) Pages.signed_out) = Ok (b, b).
Proof.
  assert (H : unchanged Sim.driver Pages.signed_out
                (final (is_logged_in Sim.driver Pages.signed_out)))
    by (unfold unchanged; repeat split; reflexivity).
  split; [exact H|].
  exact (is_logged_in_idempotent Sim.driver Pages.signed_out H).
Defined.

(** ** Login *)

Lemma login_failed_run (drv : PageDriver) (e : Exception) (w w1 w2 : World drv) :
  screenshot drv "login_error.png" w = (Ok tt, w1) ->
  pause drv w1 = (Ok tt, w2) ->
  login_failed drv e w = mkRun (Ok false) w2 (failure_report e).
Proof.
  intros Hshot Hpause.
  unfold login_failed, bind, call, print, emit, ret.
  rewrite Hshot, Hpause. reflexivity.
Qed.

Lemma login_after_goto (drv : PageDriver) (email password : PyVal)
    (w w1 : World drv) :
  goto drv "https://www.linkedin.com/login" w = (Ok tt, w1) ->
  login drv email password w =
    let r := try_except (login_attempt drv email password) (login_failed drv) w1 in
    mkRun (outcome r) (final r)
          ([ Print "INFO: Navigating to LinkedIn login page...";
             Called (CGoto "https://www.linkedin.com/login") ] ++ log r).
Proof.
  intros Hgoto. unfold login, bind, call, print, emit.
  rewrite Hgoto. now destruct (try_except _ _ w1).
Qed.

Lemma login_goto_raises (drv : PageDriver) (email password : PyVal)
    (w w1 : World drv) (e : Exception) :
  goto drv "https://www.linkedin.com/login" w = (Raise e, w1) ->
  login drv email password w =
    mkRun (Raise e) w1
          [ Print "INFO: Navigating to LinkedIn login page...";
            Called (CGoto "https://www.linkedin.com/login") ].
Proof.
  intros Hgoto. unfold login, bind, call, print, emit.
  rewrite Hgoto. reflexivity.
Qed.

(** The login form is filled and submitted, and the "Messaging" link does
    not show within the bound. *)
Lemma login_attempt_no_messaging (drv : PageDriver) (email password : PyVal)
    (w1 w2 w3 w4 w5 w6 : World drv) (e : Exception) :
  wait_for drv USERNAME_FIELD 10000 w1 = (Ok tt, w2) ->
  fill drv USERNAME_FIELD email w2 = (Ok tt, w3) ->
  fill drv PASSWORD_FIELD password w3 = (Ok tt, w4) ->
  click drv SIGN_IN_BUTTON w4 = (Ok tt, w5) ->
  expect_to_be_visible drv MESSAGING_LINK 60000 w5 = (Raise e, w6) ->
  outcome (login_attempt drv email password w1) = Raise e
  /\ final (login_attempt drv email password w1) = w6.
Proof.
  intros Hwait Hmail Hpass Hclick Hexpect.
  unfold login_attempt, bind, call, print, emit, ret.
  rewrite Hwait, Hmail, Hpass, Hclick, Hexpect. split; reflexivity.
Qed.

Lemma login_failed_no_screenshot (drv : PageDriver) (e e' : Exception)
    (w w1 : World drv) :
  screenshot drv "login_error.png" w = (Raise e', w1) ->
  outcome (login_failed drv e w) = Raise e'
  /\ ~ In (Called CPause) (log (login_failed drv e w)).
Proof.
  intros Hshot. unfold login_failed, bind, call, print, emit, ret.
  rewrite Hshot. cbn [outcome log app]. split; [reflexivity|].
  intros [H|[H|[H|[H|[]]]]]; discriminate H.
Qed.

Lemma login_failed_no_pause (drv : PageDriver) (e e' : Exception)
    (w w1 w2 : World drv) :
  screenshot drv "login_error.png" w = (Ok tt, w1) ->
  pause drv w1 = (Raise e', w2) ->
  outcome (login_failed drv e w) = Raise e'.
Proof.
  intros Hshot Hpause. unfold login_failed, bind, call, print, emit, ret.
  now rewrite Hshot, Hpause.
Qed.

(** C3, as amended.  An exception raised inside the [try] block of [login]
    (by the wait for the identifier field, a fill, the click or the wait for
    the "Messaging" link) is caught by the one handler: it asks for a
    screenshot at "login_error.png" and then pauses, and when both complete
    [login] returns [False].  In particular so when the form is filled and
    submitted and the "Messaging" link does not show within the bound.  An
    exception raised by the navigation that precedes the [try] block, by the
    screenshot or by the pause leaves [login]. *)
Theorem login_failure_handled (drv : PageDriver) (email password : PyVal) :
  (forall (w w1 w3 w4 : World drv) (e : Exception),
      goto drv "https://www.linkedin.com/login" w = (Ok tt, w1) ->
      outcome (login_attempt drv email password w1) = Raise e ->
      screenshot drv "login_error.png"
                 (final (login_attempt drv email password w1)) = (Ok tt, w3) ->
      pause drv w3 = (Ok tt, w4) ->
      outcome (login drv email password w) = Ok false
      /\ final (login drv email password w) = w4
      /\ log (login drv email password w) =
           [ Print "INFO: Navigating to LinkedIn login page...";
             Called (CGoto "https://www.linkedin.com/login") ]
           ++ log (login_attempt drv email password w1) ++ failure_report e)
  /\ (forall (w w1 w2 w3 w4 w5 w6 w7 w8 : World drv) (e : Exception),
      goto drv "https://www.linkedin.com/login" w = (Ok tt, w1) ->
      wait_for drv USERNAME_FIELD 10000 w1 = (Ok tt, w2) ->
      fill drv USERNAME_FIELD email w2 = (Ok tt, w3) ->
      fill drv PASSWORD_FIELD password w3 = (Ok tt, w4) ->
      click drv SIGN_IN_BUTTON w4 = (Ok tt, w5) ->
      expect_to_be_visible drv MESSAGING_LINK 60000 w5 = (Raise e, w6) ->
      screenshot drv "login_error.png" w6 = (Ok tt, w7) ->
      pause drv w7 = (Ok tt, w8) ->
      outcome (login drv email password w) = Ok false
      /\ final (login drv email password w) = w8
      /\ In (Called (CScreenshot "login_error.png"))
            (log (login drv email password w))
      /\ In (Called CPause) (log (login drv email password w)))
  /\ (forall (w w1 : World drv) (e : Exception),
      goto drv "https://www.linkedin.com/login" w = (Raise e, w1) ->
      outcome (login drv email password w) = Raise e
      /\ ~ In (Called (CScreenshot "login_error.png"))
              (log (login drv email password w)))
  /\ (forall (w w1 w3 : World drv) (e e' : Exception),
      goto drv "https://www.linkedin.com/login" w = (Ok tt, w1) ->
      outcome (login_attempt drv email password w1) = Raise e ->
      screenshot drv "login_error.png"
                 (final (login_attempt drv email password w1)) = (Raise e', w3) ->
      outcome (login drv email password w) = Raise e')
  /\ (forall (w w1 w3 w4 : World drv) (e e' : Exception),
      goto drv "https://www.linkedin.com/login" w = (Ok tt, w1) ->
      outcome (login_attempt drv email password w1) = Raise e ->
      screenshot drv "login_error.png"
                 (final (login_attempt drv email password w1)) = (Ok tt, w3) ->
      pause drv w3 = (Raise e', w4) ->
      outcome (login drv email password w) = Raise e').
Proof.
  assert (General :
    forall (w w1 w3 w4 : World drv) (e : Exception),
      goto drv "https://www.linkedin.com/login" w = (Ok tt, w1) ->
      outcome (login_attempt drv email password w1) = Raise e ->
      screenshot drv "login_error.png"
                 (final (login_attempt drv email password w1)) = (Ok tt, w3) ->
      pause drv w3 = (Ok tt, w4) ->
      outcome (login drv email password w) = Ok false
      /\ final (login drv email password w) = w4
      /\ log (login drv email password w) =
           [ Print "INFO: Navigating to LinkedIn login page...";
             Called (CGoto "https://www.linkedin.com/login") ]
           ++ log (login_attempt drv email password w1) ++ failure_report e).
  { intros w w1 w3 w4 e Hgoto Hraise Hshot Hpause.
    rewrite (login_after_goto drv email password w w1 Hgoto).
    rewrite (try_except_raise _ _ _ _ Hraise).
    rewrite (login_failed_run drv e _ w3 w4 Hshot Hpause).
    cbn [outcome final log]. repeat split. }
  split; [exact General|]. split; [|split; [|split]].
  - intros w w1 w2 w3 w4 w5 w6 w7 w8 e
           Hgoto Hwait Hmail Hpass Hclick Hexpect Hshot Hpause.
    destruct (login_attempt_no_messaging drv email password
                w1 w2 w3 w4 w5 w6 e Hwait Hmail Hpass Hclick Hexpect)
      as [Hraise Hfinal].
    rewrite <- Hfinal in Hshot.
    destruct (General w w1 w7 w8 e Hgoto Hraise Hshot Hpause)
      as [Hout [Hend Hlog]].
    repeat split; try assumption; rewrite Hlog;
      apply in_or_app; right; apply in_or_app; right;
      unfold failure_report; cbn [In]; auto 10.
  - intros w w1 e Hgoto.
    rewrite (login_goto_raises drv email password w w1 e Hgoto).
    cbn [outcome log]. split; [reflexivity|].
    intros [H|[H|[]]]; discriminate H.
  - intros w w1 w3 e e' Hgoto Hraise Hshot.
    rewrite (login_after_goto drv email password w w1 Hgoto).
    rewrite (try_except_raise _ _ _ _ Hraise). cbn [outcome].
    now apply (login_failed_no_screenshot drv e e' _ w3).
  - intros w w1 w3 w4 e e' Hgoto Hraise Hshot Hpause.
    rewrite (login_after_goto drv email password w w1 Hgoto).
    rewrite (try_except_raise _ _ _ _ Hraise). cbn [outcome].
    now apply (login_failed_no_pause drv e e' _ w3 w4).
Qed.

Lemma login_failure_handled_witness :
  goto Sim.driver "https://www.linkedin.com/login" Pages.rejected
  = (Ok tt, Pages.rejected_on_form)
  /\ fill Sim.driver USERNAME_FIELD (LINKEDIN_EMAIL Pages.someone)
          Pages.rejected_on_form = (Ok tt, Pages.rejected_on_form)
  /\ fill Sim.driver PASSWORD_FIELD (LINKEDIN_PASSWORD Pages.someone)
          Pages.rejected_on_form = (Ok tt, Pages.rejected_on_form)
  /\ expect_to_be_visible Sim.driver MESSAGING_LINK 60000 Pages.rejected_on_form
     = (Raise Sim.timeout_error, Pages.rejected_on_form)
  /\ outcome (login Sim.driver (LINKEDIN_EMAIL Pages.someone)
                    (LINKEDIN_PASSWORD Pages.someone) Pages.rejected) = Ok false
  /\ Sim.files (final (login Sim.driver (LINKEDIN_EMAIL Pages.someone)
                         (LINKEDIN_PASSWORD Pages.someone) Pages.rejected))
     = ["login_error.png"]
  /\ In (Called (CScreenshot "login_error.png"))
        (log (login Sim.driver (LINKEDIN_EMAIL Pages.someone)
                    (LINKEDIN_PASSWORD Pages.someone) Pages.rejected))
  /\ In (Called CPause)
        (log (login Sim.driver (LINKEDIN_EMAIL Pages.someone)
                    (LINKEDIN_PASSWORD Pages.someone) Pages.rejected)).
Proof.
  pose proof (proj1 (proj2 (login_failure_handled Sim.driver
                              (LINKEDIN_EMAIL Pages.someone)
                              (LINKEDIN_PASSWORD Pages.someone)))) as Hcase.
  specialize (Hcase Pages.rejected _ _ _ _ _ _ _ _ _
                eq_refl eq_refl eq_refl eq_refl eq_refl eq_refl eq_refl eq_refl).
  destruct Hcase as [Hout [Hend [Hshot Hpause]]].
  do 4 (split; [reflexivity|]).
  split; [exact Hout|]. split; [rewrite Hend; reflexivity|].
  split; assumption.
Defined.

(** When the network is down the navigation raises before the [try] block
    is entered; when the screenshot cannot be written the handler raises.
    Either way the exception leaves [login]. *)
Lemma login_contains_failures_counterexample :
  ~ login_contains_failures Sim.driver (LINKEDIN_EMAIL Pages.someone)
      (LINKEDIN_PASSWORD Pages.someone) Pages.unplugged
  /\ ~ login_contains_failures Sim.driver (LINKEDIN_EMAIL Pages.someone)
         (LINKEDIN_PASSWORD Pages.someone) Pages.rejected_disk_full.
Proof.
  split; intros [Hnever _].
  - apply (Hnever Sim.net_error). reflexivity.
  - apply (Hnever Sim.disk_error). reflexivity.
Qed.

(** ** The extraction pass *)

Lemma has_status_contains (text : string) :
  has_status text = str_in "Status" text.
Proof. now destruct text. Qed.

(** One card, on a page that stands still: the reads decide. *)
Lemma read_card_still (drv : PageDriver) (w : World drv) (card : Locator) :
  still drv w ->
  outcome (read_card drv card w) =
    match alt_of drv w card with
    | Raise e => Raise e
    | Ok name =>
        match status_of drv w card with
        | Raise e => Raise e
        | Ok text => Ok (if has_status text then Some name else None)
        end
    end
  /\ final (read_card drv card w) = w.
Proof.
  intros [Hattr Htext].
  unfold read_card, alt_of, status_of, bind, call, ret.
  specialize (Hattr (Within card "img.presence-entity__image") "alt").
  specialize (Htext (Within card "span.visually-hidden")).
  destruct (get_attribute drv _ _ w) as [[name|e] w1]; cbn [fst snd] in *;
    subst w1; [|now split].
  destruct (inner_text drv _ w) as [[text|e] w1] eqn:Hread; cbn [fst snd] in *;
    subst w1; [|now split].
  destruct text as [|c text]; [now split|].
  rewrite Hread. rewrite has_status_contains.
  now destruct (str_in "Status" (String c text)).
Qed.

Lemma scan_cards_still (drv : PageDriver) (w : World drv) :
  still drv w ->
  forall cards acc,
    outcome (scan_cards drv cards acc w) =
      Ok (acc ++ map (name_of drv w) (filter (qualifies drv w) cards))
    /\ final (scan_cards drv cards acc w) = w.
Proof.
  intros Hstill cards.
  induction cards as [|card rest IH]; intros acc.
  - cbn. now rewrite app_nil_r.
  - destruct (read_card_still drv w card Hstill) as [Hout Hend].
    cbn [scan_cards filter].
    unfold bind at 1, try_except, bind, ret.
    destruct (read_card drv card w) as [o w1 l1]. cbn [outcome final] in *.
    subst w1 o. unfold qualifies at 1.
    destruct (alt_of drv w card) as [name|e] eqn:Halt;
      [destruct (status_of drv w card) as [text|e] eqn:Hstat;
       [destruct (has_status text) eqn:Hhas|]|];
      [specialize (IH (acc ++ [name])) | specialize (IH acc) ..];
      destruct IH as [IHout IHend];
      destruct (scan_cards drv rest _ w) as [o2 w2 l2];
      cbn [outcome final map] in *; subst; (split; [|reflexivity]);
      try reflexivity.
    assert (Hname : name_of drv w card = name)
      by (unfold name_of; now rewrite Halt).
    rewrite Hname. now rewrite <- app_assoc.
Qed.

(** C1, as amended.  On a page that stands still while it is read,
    [extract] returns, in render order, the alt attribute of exactly the
    cards whose alt read and status read do not raise and whose status text
    is non-empty and contains "Status".  A card whose name read raises is
    dropped; the name of a card that is kept is the attribute as read, be it
    empty or missing. *)
Theorem extract_active_cards (drv : PageDriver) (w w1 : World drv)
    (cards : list Locator) :
  locator_all drv PROFILE_CARDS w = (Ok cards, w1) ->
  still drv w1 ->
  outcome (extract drv w) =
    Ok (map (name_of drv w1) (filter (qualifies drv w1) cards))
  /\ final (extract drv w) = w1.
Proof.
  intros Hall Hstill.
  destruct (scan_cards_still drv w1 Hstill cards []) as [Hout Hend].
  unfold extract, bind, call, print, emit, ret. rewrite Hall.
  destruct (scan_cards drv cards [] w1) as [o w2 l2].
  cbn [outcome final app] in *. now subst.
Qed.

Lemma sim_still (p : Sim.Page) : still Sim.driver p.
Proof.
  split; intros l; intros; cbn; unfold Sim.read_card_field, Sim.alive;
    (destruct (Sim.closed p); [reflexivity|]);
    (destruct l as [| | |[]|]; try reflexivity);
    now destruct (nth_error (Sim.cards p) index).
Qed.

Lemma extract_active_cards_witness :
  locator_all Sim.driver PROFILE_CARDS Pages.scenario
  = (Ok (map (Item PROFILE_CARDS) [0; 1; 2]), Pages.scenario)
  /\ still Sim.driver Pages.scenario
  /\ outcome (extract Sim.driver Pages.scenario)
     = Ok [Some "Alice A"; Some "Carol C"]
  /\ final (extract Sim.driver Pages.scenario) = Pages.scenario.
Proof.
  split; [reflexivity|]. split; [apply sim_still|].
  exact (extract_active_cards Sim.driver Pages.scenario Pages.scenario
           _ eq_refl (sim_still Pages.scenario)).
Defined.

(** A card whose image has no alt attribute is listed as [None], and one
    whose alt attribute is empty as the empty string. *)
Lemma extract_names_nonempty_counterexample :
  ~ extract_names_nonempty Sim.driver Pages.nameless.
Proof.
  intros H.
  specialize (H [Some "Alice A"; None; Some ""] eq_refl).
  inversion H as [|? ? _ Hrest]. inversion Hrest as [|? ? [s [Hnone _]] _].
  discriminate Hnone.
Qed.

(** The loop over the cards always returns. *)
Lemma scan_cards_returns (drv : PageDriver) (cards : list Locator) :
  forall acc (w : World drv),
    exists results, outcome (scan_cards drv cards acc w) = Ok results.
Proof.
  induction cards as [|card rest IH]; intros acc w.
  - now exists acc.
  - cbn [scan_cards]. unfold bind at 1, try_except, bind, ret.
    destruct (read_card drv card w) as [[[name|]|e] w1 l1];
      [destruct (IH (acc ++ [name]) w1) as [results Hres]
      |destruct (IH acc w1) as [results Hres] ..];
      destruct (scan_cards drv rest _ w1) as [o2 w2 l2];
      now exists results.
Qed.

(** C8.  A failure raised while one card is read stays with that card:
    the loop over the cards never raises; when reading a card raises, the
    loop goes on over the remaining cards with the results as they were;
    and an exception out of [extract] can only be the one of the
    enumeration of the cards. *)
Theorem card_failure_isolated (drv : PageDriver) :
  (forall cards acc (w : World drv),
      exists results, outcome (scan_cards drv cards acc w) = Ok results)
  /\ (forall card rest acc (w : World drv) e,
      outcome (read_card drv card w) = Raise e ->
      outcome (scan_cards drv (card :: rest) acc w)
      = outcome (scan_cards drv rest acc (final (read_card drv card w)))
      /\ final (scan_cards drv (card :: rest) acc w)
         = final (scan_cards drv rest acc (final (read_card drv card w)))
      /\ log (scan_cards drv (card :: rest) acc w)
         = log (read_card drv card w)
           ++ log (scan_cards drv rest acc (final (read_card drv card w))))
  /\ (forall (w : World drv) e,
      outcome (extract drv w) = Raise e ->
      fst (locator_all drv PROFILE_CARDS w) = Raise e).
Proof.
  assert (Hnever : forall cards acc (w : World drv),
             exists results, outcome (scan_cards drv cards acc w) = Ok results)
    by (intros cards; apply scan_cards_returns).
  split; [exact Hnever|]. split.
  - intros card rest acc w e Hraise.
    cbn [scan_cards]. unfold bind at 1, try_except, bind, ret.
    destruct (read_card drv card w) as [o w1 l1]. cbn [outcome final log] in *.
    subst o. destruct (scan_cards drv rest acc w1) as [o2 w2 l2].
    cbn [outcome final log]. now rewrite app_nil_r.
  - intros w e. unfold extract, bind, call, print, emit, ret.
    destruct (locator_all drv PROFILE_CARDS w) as [[cards|e'] w1];
      cbn [fst outcome]; [|congruence].
    destruct (Hnever cards [] w1) as [results Hres].
    destruct (scan_cards drv cards [] w1) as [o2 w2 l2].
    cbn [outcome] in *. subst o2. discriminate.
Qed.

Lemma card_failure_isolated_witness :
  outcome (read_card Sim.driver (Item PROFILE_CARDS 1) Pages.broken)
  = Raise Sim.timeout_error
  /\ outcome (scan_cards Sim.driver
             (map (Item PROFILE_CARDS) [1; 2; 3]) [Some "Alice A"] Pages.broken)
  = outcome (scan_cards Sim.driver
               (map (Item PROFILE_CARDS) [2; 3]) [Some "Alice A"] Pages.broken)
  /\ outcome (extract Sim.driver Pages.broken)
     = Ok [Some "Alice A"; Some "Carol C"].
Proof.
  destruct (card_failure_isolated Sim.driver) as [_ [Hskip _]].
  split; [reflexivity|]. split; [|reflexivity].
  apply (Hskip (Item PROFILE_CARDS 1) (map (Item PROFILE_CARDS) [2; 3])
               [Some "Alice A"] Pages.broken Sim.timeout_error).
  reflexivity.
Defined.

(** ** [message_person] on what [people_search] returns *)

(** C10, as amended.  [people_search] returns a flat list whose entries are
    names or [None], never pairs.  [message_person] unpacks each entry into
    two targets: an entry that is a string of two characters unpacks (into
    its two characters: no link is there), [None] raises a [TypeError] and a
    string of any other length a [ValueError].  So [message_person] prints a
    line for each entry before the first that does not unpack, raises there,
    and ends without an exception on a list of two-character names. *)
Theorem message_person_unpacking (drv : PageDriver) (people : list PyVal)
    (w : World drv) :
  match find (fun item => negb (unpacks item)) people with
  | None => outcome (message_person drv people w) = Ok tt
  | Some None =>
      exists e, outcome (message_person drv people w) = Raise e
                /\ exn_type e = TypeError
  | Some (Some _) =>
      exists e, outcome (message_person drv people w) = Raise e
                /\ exn_type e = ValueError
  end
  /\ final (message_person drv people w) = w
  /\ log (message_person drv people w)
     = map (fun item => Print ("Ready to process: " ++ first_of item)%string)
           (processed people).
Proof.
  induction people as [|item rest IH].
  - cbn. repeat split.
  - destruct IH as [IHout [IHend IHlog]].
    cbn [message_person find processed].
    destruct item as [[|a [|b [|c s]]]|]; cbn [unpacks negb map first_of fst];
      unfold bind, print, emit, unpack2, ret, raise;
      try (split; [eexists; split; reflexivity | split; reflexivity]).
    destruct (message_person drv rest w) as [o w1 l1].
    cbn [outcome final log] in *. subst w1 l1. split; [|split; reflexivity].
    destruct (find (fun item => negb (unpacks item)) rest) as [[s|]|]; exact IHout.
Qed.

(** Two names of two characters each go through [message_person]. *)
Lemma shapes_incompatible_counterexample :
  ~ shapes_incompatible Sim.driver Pages.short_names.
Proof.
  intros H.
  destruct (H [Some "Bo"; Some "Li"] eq_refl) as [e He]; [discriminate|].
  vm_compute in He. discriminate He.
Qed.

(** ** Dispatch *)

Section QuietLemmas.

Context {W : Type}.

Lemma quiet_nil : quiet [].
Proof. now split. Qed.

Lemma quiet_app (a b : list Event) : quiet a -> quiet b -> quiet (a ++ b).
Proof.
  unfold quiet. intros [Ha1 Ha2] [Hb1 Hb2].
  now rewrite dispatched_app, printed_lists_app, Ha1, Ha2, Hb1, Hb2.
Qed.

Lemma Quiet_ret {A} (a : A) : Quiet (@ret W A a).
Proof. intros w. apply quiet_nil. Qed.

Lemma Quiet_raise {A} (e : Exception) : Quiet (@raise W A e).
Proof. intros w. apply quiet_nil. Qed.

Lemma Quiet_print (line : string) : Quiet (@print W line).
Proof. intros w. now split. Qed.

Lemma Quiet_call {A} (c : Call) (op : W -> Outcome A * W) : Quiet (call c op).
Proof. intros w. unfold call. destruct (op w). now split. Qed.

Lemma Quiet_bind {A B} (m : M W A) (k : A -> M W B) :
  Quiet m -> (forall a, Quiet (k a)) -> Quiet (bind m k).
Proof.
  intros Hm Hk w. specialize (Hm w). unfold bind.
  destruct (m w) as [[a|e] w1 l1]; cbn [log] in *; [|exact Hm].
  specialize (Hk a w1). destruct (k a w1) as [o w2 l2]. cbn [log] in *.
  now apply quiet_app.
Qed.

Lemma Quiet_try_except {A} (m : M W A) (h : Exception -> M W A) :
  Quiet m -> (forall e, Quiet (h e)) -> Quiet (try_except m h).
Proof.
  intros Hm Hh w. specialize (Hm w). unfold try_except.
  destruct (m w) as [[a|e] w1 l1]; cbn [log] in *; [exact Hm|].
  specialize (Hh e w1). destruct (h e w1) as [o w2 l2]. cbn [log] in *.
  now apply quiet_app.
Qed.

End QuietLemmas.

Ltac quiet_steps :=
  repeat first
    [ apply Quiet_bind; [|intros ?]
    | apply Quiet_try_except; [|intros ?]
    | apply Quiet_ret | apply Quiet_raise | apply Quiet_print | apply Quiet_call
    | match goal with |- Quiet (if ?b then _ else _) => destruct b end
    | match goal with |- Quiet (match ?x with _ => _ end) => destruct x end ].

Lemma Quiet_is_logged_in (drv : PageDriver) : Quiet (is_logged_in drv).
Proof.
  intros w. unfold is_logged_in.
  destruct (str_in "/feed" (page_url drv w));
    match goal with |- quiet (log (?m w)) => revert w; change (Quiet m) end;
    quiet_steps.
Qed.

Lemma Quiet_login (drv : PageDriver) (email password : PyVal) :
  Quiet (login drv email password).
Proof. unfold login, login_attempt, login_failed. quiet_steps. Qed.

Lemma Quiet_company_search (drv : PageDriver) (company : string) :
  Quiet (company_search drv company).
Proof. unfold company_search. quiet_steps. Qed.

Lemma Quiet_apply_first_degree_filter (drv : PageDriver) :
  Quiet (apply_first_degree_filter drv).
Proof. unfold apply_first_degree_filter. quiet_steps. Qed.

Lemma Quiet_read_card (drv : PageDriver) (card : Locator) :
  Quiet (read_card drv card).
Proof. unfold read_card. quiet_steps. Qed.

Lemma Quiet_scan_cards (drv : PageDriver) (cards : list Locator) :
  forall acc, Quiet (scan_cards drv cards acc).
Proof.
  induction cards as [|card rest IH]; intros acc; cbn [scan_cards].
  - apply Quiet_ret.
  - apply Quiet_bind; [|intros ?; apply IH].
    apply Quiet_try_except; [|intros ?; apply Quiet_ret].
    apply Quiet_bind; [apply Quiet_read_card|]. intros [name|]; apply Quiet_ret.
Qed.

(** A name [read_card] hands back was read from a card with an active
    status. *)
Lemma read_card_active (drv : PageDriver) (card : Locator) (name : PyVal)
    (w : World drv) :
  outcome (read_card drv card w) = Ok (Some name) ->
  read_as_active drv card name.
Proof.
  unfold read_card, read_as_active, bind, call, ret.
  destruct (get_attribute drv _ "alt" w) as [[name'|e] w1] eqn:Hname;
    cbn [outcome]; [|discriminate].
  destruct (inner_text drv _ w1) as [[first|e] w2] eqn:Hfirst;
    cbn [outcome]; [|discriminate].
  destruct first as [|c first]; cbn [outcome]; [discriminate|].
  destruct (inner_text drv _ w2) as [[second|e] w3] eqn:Hsecond;
    cbn [outcome]; [|discriminate].
  destruct (str_in "Status" second) eqn:Hstatus; cbn [outcome];
    [|discriminate].
  intros H. injection H as <-.
  exists w, w1, w2, w3, (String c first), second.
  repeat split; try assumption. discriminate.
Qed.

(** The loop over the cards returns the names it started with, followed by
    names read from cards with an active status. *)
Lemma scan_cards_active (drv : PageDriver) (cards : list Locator) :
  forall acc (w : World drv),
    exists added,
      outcome (scan_cards drv cards acc w) = Ok (acc ++ added)
      /\ Forall (fun name => exists card,
                   In card cards /\ read_as_active drv card name) added.
Proof.
  induction cards as [|card rest IH]; intros acc w.
  - exists []. cbn. now rewrite app_nil_r.
  - cbn [scan_cards]. unfold bind at 1, try_except, bind, ret.
    pose proof (read_card_active drv card) as Hactive.
    specialize (fun name => Hactive name w).
    assert (Hrest : forall added,
              Forall (fun name => exists card',
                        In card' rest /\ read_as_active drv card' name) added ->
              Forall (fun name => exists card',
                        In card' (card :: rest) /\ read_as_active drv card' name)
                     added).
    { intros added. apply Forall_impl.
      intros name' [card' [Hin Hread]]. exists card'. split; [now right|assumption]. }
    destruct (read_card drv card w) as [[[name|]|e] w1 l1];
      cbn [outcome] in Hactive.
    + destruct (IH (acc ++ [name]) w1) as [added [Hout Hall]].
      destruct (scan_cards drv rest _ w1) as [o2 w2 l2].
      cbn [outcome] in *. subst o2. exists (name :: added).
      rewrite <- app_assoc. split; [reflexivity|].
      constructor; [|now apply Hrest].
      exists card. split; [now left|now apply Hactive].
    + destruct (IH acc w1) as [added [Hout Hall]].
      destruct (scan_cards drv rest _ w1) as [o2 w2 l2].
      cbn [outcome] in *. subst o2. exists added.
      split; [reflexivity|now apply Hrest].
    + destruct (IH acc w1) as [added [Hout Hall]].
      destruct (scan_cards drv rest _ w1) as [o2 w2 l2].
      cbn [outcome] in *. subst o2. exists added.
      split; [reflexivity|now apply Hrest].
Qed.

(** What a run of [extract] shows: an exception before anything was
    printed, or the list it returns, printed once, of names read from
    cards with an active status. *)
Lemma extract_observed (drv : PageDriver) (w : World drv) :
  (exists e, outcome (extract drv w) = Raise e /\ quiet (log (extract drv w)))
  \/ (exists cards w1 found,
        locator_all drv PROFILE_CARDS w = (Ok cards, w1)
        /\ outcome (extract drv w) = Ok found
        /\ Forall (fun name => exists card,
                     In card cards /\ read_as_active drv card name) found
        /\ printed_lists (log (extract drv w)) = [found]
        /\ dispatched (log (extract drv w)) = []).
Proof.
  unfold extract, bind, call, print, emit, ret.
  destruct (locator_all drv PROFILE_CARDS w) as [[cards|e] w1].
  - right. destruct (scan_cards_active drv cards [] w1) as [found [Hfound Hall]].
    destruct (Quiet_scan_cards drv cards [] w1) as [Hd Hp].
    destruct (scan_cards drv cards [] w1) as [o w2 l2].
    cbn [outcome log app] in *. subst o. exists cards, w1, found.
    cbn [outcome log app printed_lists dispatched].
    rewrite printed_lists_app, dispatched_app, Hd, Hp. now repeat split.
  - left. exists e. now repeat split.
Qed.

Lemma people_search_observed (drv : PageDriver) (w : World drv) :
  (exists e, outcome (people_search drv w) = Raise e
             /\ quiet (log (people_search drv w)))
  \/ (exists w0 w1 cards found,
        locator_all drv PROFILE_CARDS w0 = (Ok cards, w1)
        /\ outcome (people_search drv w) = Ok found
        /\ final (people_search drv w) = final (extract drv w0)
        /\ outcome (extract drv w0) = Ok found
        /\ Forall (fun name => exists card,
                     In card cards /\ read_as_active drv card name) found
        /\ printed_lists (log (people_search drv w)) = [found]
        /\ dispatched (log (people_search drv w)) = []).
Proof.
  unfold people_search, bind.
  pose proof (Quiet_apply_first_degree_filter drv w) as [Hd Hp].
  destruct (apply_first_degree_filter drv w) as [[[]|e] w1 l1]; cbn [log] in *.
  - destruct (extract_observed drv w1)
      as [[e [Hout Hq]]|(cards & w2 & found & Hcards & Hout & Hall & Hpl & Hdl)];
      destruct (extract drv w1) as [o w3 l3] eqn:Hrun; cbn [outcome log] in *.
    + left. exists e. split; [assumption|]. now apply quiet_app.
    + right. exists w1, w2, cards, found. rewrite Hrun. cbn [outcome final].
      rewrite printed_lists_app, dispatched_app, Hd, Hp, Hpl, Hdl.
      now repeat split.
  - left. exists e. now repeat split.
Qed.

(** The loop over the names found calls [people_message] for the first
    name, and for the next one once a turn has run to its end. *)
Lemma message_each_served (drv : PageDriver) (found : list PyVal) :
  forall w : World drv,
    printed_lists (log (message_each drv found w)) = []
    /\ served drv w found (dispatched (log (message_each drv found w))).
Proof.
  induction found as [|person others IH]; intros w.
  - cbn. split; [reflexivity|constructor].
  - remember (message_each drv (person :: others) w) as r eqn:Hr.
    cbn [message_each] in Hr. unfold people_message, concat_message in Hr.
    unfold bind, print, emit, call, ret, raise in Hr.
    destruct person as [s|].
    + destruct (click drv (ByRole "button" ("Message " ++ s)%string true) w)
        as [[[]|e] w1] eqn:Hclick.
      * destruct (pause drv w1) as [[[]|e] w2] eqn:Hpause.
        -- destruct (browser_close drv w2) as [[[]|e] w3] eqn:Hclose.
           ++ destruct (IH w3) as [IHp IHs].
              destruct (message_each drv others w3) as [o w4 l4].
              subst r. cbn [log app dispatched printed_lists] in *.
              split; [assumption|].
              apply served_next with w3; [|assumption].
              now exists s, w1, w2.
           ++ subst r. cbn [log app dispatched printed_lists].
              split; [reflexivity|]. apply served_stop.
              intros w' (s' & w1' & w2' & Hs & Hc & Hp & Hb).
              injection Hs as <-. rewrite Hclick in Hc. injection Hc as <-.
              rewrite Hpause in Hp. injection Hp as <-.
              rewrite Hclose in Hb. discriminate Hb.
        -- subst r. cbn [log app dispatched printed_lists].
           split; [reflexivity|]. apply served_stop.
           intros w' (s' & w1' & w2' & Hs & Hc & Hp & Hb).
           injection Hs as <-. rewrite Hclick in Hc. injection Hc as <-.
           rewrite Hpause in Hp. discriminate Hp.
      * subst r. cbn [log app dispatched printed_lists].
        split; [reflexivity|]. apply served_stop.
        intros w' (s' & w1' & w2' & Hs & Hc & Hp & Hb).
        injection Hs as <-. rewrite Hclick in Hc. discriminate Hc.
    + subst r. cbn [log app dispatched printed_lists].
      split; [reflexivity|]. apply served_stop.
      intros w' (s' & w1' & w2' & Hs & _). discriminate Hs.
Qed.

(** The calls [served] allows are the first names of the list, in order. *)
Lemma served_prefix (drv : PageDriver) (w : World drv)
    (found called : list PyVal) :
  served drv w found called -> exists rest, found = called ++ rest.
Proof.
  induction 1 as [w|w person rest Hstop|w w' person rest called Hturn Hrest IH].
  - now exists [].
  - now exists rest.
  - destruct IH as [rest' ->]. now exists rest'.
Qed.

(** The first name is always called. *)
Lemma served_first (drv : PageDriver) (w : World drv)
    (person : PyVal) (rest called : list PyVal) :
  served drv w (person :: rest) called ->
  exists others, called = person :: others.
Proof.
  intros H. inversion H; subst; eauto.
Qed.

Lemma turn_completes_functional (drv : PageDriver) (person : PyVal)
    (w w1 w2 : World drv) :
  turn_completes drv person w w1 -> turn_completes drv person w w2 -> w1 = w2.
Proof.
  intros (s & a & b & Hs & Hc & Hp & Hb) (s' & a' & b' & Hs' & Hc' & Hp' & Hb').
  subst person. injection Hs' as <-.
  rewrite Hc in Hc'. injection Hc' as <-.
  rewrite Hp in Hp'. injection Hp' as <-.
  rewrite Hb in Hb'. now injection Hb'.
Qed.

(** [served] leaves no choice: the names called are determined by the
    list and the state the loop starts in. *)
Lemma served_functional (drv : PageDriver) (w : World drv)
    (found called called' : list PyVal) :
  served drv w found called -> served drv w found called' -> called = called'.
Proof.
  intros H. revert called'.
  induction H as [w|w person rest Hstop|w w' person rest called Hturn Hrest IH];
    intros called' H'; inversion H'; subst; try reflexivity.
  - exfalso. eapply Hstop. eassumption.
  - exfalso. match goal with Hs : forall _, ~ _ |- _ => eapply Hs end.
    eassumption.
  - f_equal. apply IH.
    match goal with
    | Ht : turn_completes _ _ _ ?w2 |- served _ _ _ _ =>
        now rewrite (turn_completes_functional _ _ _ _ _ Hturn Ht)
    end.
Qed.

Lemma dispatch_follows_bind_quiet (drv : PageDriver) {A : Type}
    (m : M (World drv) A) (k : A -> M (World drv) unit) (w : World drv) :
  Quiet m ->
  (forall a w', dispatch_follows drv (k a w')) ->
  dispatch_follows drv (bind m k w).
Proof.
  intros Hm Hk. destruct (Hm w) as [Hd Hp]. unfold bind.
  destruct (m w) as [[a|e] w1 l1]; cbn [log] in *.
  2:{ left. split; [now exists e|now split]. }
  specialize (Hk a w1). unfold dispatch_follows in *.
  destruct (k a w1) as [o w2 l2]. cbn [outcome log] in *.
  destruct Hk as [[Hraise Hq]
                 | (w0 & w0' & cards & found & Hcards & Hext & Hall & Hpl & Hserved)].
  - left. split; [assumption|]. now apply quiet_app.
  - right. exists w0, w0', cards, found.
    rewrite printed_lists_app, dispatched_app, Hd, Hp. now repeat split.
Qed.

Lemma dispatch_follows_finally (drv : PageDriver)
    (m : M (World drv) unit) (cleanup : World drv -> World drv) (c : Call)
    (w : World drv) :
  dispatch_follows drv (m w) ->
  dispatch_follows drv (finally m cleanup c w).
Proof.
  unfold finally, dispatch_follows. destruct (m w) as [o w1 l1].
  cbn [outcome log].
  intros [[Hraise Hq]
         | (w0 & w0' & cards & found & Hcards & Hext & Hall & Hpl & Hserved)].
  - left. split; [assumption|]. apply quiet_app; [assumption|now split].
  - right. exists w0, w0', cards, found.
    rewrite printed_lists_app, dispatched_app. cbn [printed_lists dispatched].
    rewrite !app_nil_r. now repeat split.
Qed.

(** From the search on: the names found are printed, then called in order,
    and what follows the loop dispatches nothing. *)
Lemma dispatch_follows_search (drv : PageDriver) (tail : M (World drv) unit)
    (w : World drv) :
  Quiet tail ->
  dispatch_follows drv
    (bind (people_search drv)
          (fun found => bind (message_each drv found) (fun _ => tail)) w).
Proof.
  intros Htail.
  remember (bind (people_search drv)
              (fun found => bind (message_each drv found) (fun _ => tail)) w)
    as r eqn:Hr.
  unfold bind in Hr.
  destruct (people_search_observed drv w)
    as [[e [Hout Hq]]
       | (w0 & w0' & cards & found & Hcards & Hout & Hend & Hext & Hall & Hpl & Hdl)];
    destruct (people_search drv w) as [o1 w1 l1]; cbn [outcome final log] in *;
    subst o1.
  - subst r. left. split; [now exists e|assumption].
  - subst w1.
    destruct (message_each_served drv found (final (extract drv w0)))
      as [Hp2 Hserved].
    destruct (message_each drv found (final (extract drv w0)))
      as [[[]|e] w2 l2]; cbn [outcome log] in *.
    + destruct (Htail w2) as [Hd3 Hp3]. destruct (tail w2) as [o3 w3 l3].
      cbn [log] in *. subst r. right. exists w0, w0', cards, found.
      cbn [outcome log].
      rewrite !printed_lists_app, !dispatched_app, Hpl, Hdl, Hp2, Hd3, Hp3.
      cbn [app]. rewrite !app_nil_r. now repeat split.
    + subst r. right. exists w0, w0', cards, found. cbn [outcome log].
      rewrite printed_lists_app, dispatched_app, Hpl, Hdl, Hp2.
      cbn [app]. now repeat split.
Qed.

(** What runs between the start and the stop of Playwright. *)
Lemma dispatch_follows_body (drv : PageDriver) (env : Env) (w : World drv) :
  dispatch_follows drv (demonstration_body drv env w).
Proof.
  unfold demonstration_body.
  do 3 (apply dispatch_follows_bind_quiet; [apply Quiet_call|]; intros _ ?w).
  apply dispatch_follows_bind_quiet; [apply Quiet_is_logged_in|].
  intros logged_in w4.
  apply dispatch_follows_bind_quiet.
  { destruct logged_in; cbn [negb]; [apply Quiet_print|].
    apply Quiet_bind; [apply Quiet_print|]. intros _.
    apply Quiet_bind; [apply Quiet_login|]. intros _. apply Quiet_ret. }
  intros _ w5.
  apply dispatch_follows_bind_quiet; [apply Quiet_company_search|]. intros _ w6.
  apply dispatch_follows_bind_quiet; [apply Quiet_print|]. intros _ w7.
  apply dispatch_follows_search. quiet_steps.
Qed.




(** ** Further properties of the flow *)

(** X1.  When the navigation, the wait for the identifier field, the two
    fills, the click and the wait for the "Messaging" link all complete,
    [login] returns [True], and it takes no screenshot and does not pause. *)
Theorem login_success (drv : PageDriver) (email password : PyVal)
    (w w1 w2 w3 w4 w5 w6 : World drv) :
  goto drv "https://www.linkedin.com/login" w = (Ok tt, w1) ->
  wait_for drv USERNAME_FIELD 10000 w1 = (Ok tt, w2) ->
  fill drv USERNAME_FIELD email w2 = (Ok tt, w3) ->
  fill drv PASSWORD_FIELD password w3 = (Ok tt, w4) ->
  click drv SIGN_IN_BUTTON w4 = (Ok tt, w5) ->
  expect_to_be_visible drv MESSAGING_LINK 60000 w5 = (Ok tt, w6) ->
  outcome (login drv email password w) = Ok true
  /\ final (login drv email password w) = w6
  /\ (forall path, ~ In (Called (CScreenshot path)) (log (login drv email password w)))
  /\ ~ In (Called CPause) (log (login drv email password w)).
Proof.
  intros Hgoto Hwait Hmail Hpass Hclick Hexpect.
  rewrite (login_after_goto drv email password w w1 Hgoto).
  unfold try_except, login_attempt, bind, call, print, emit, ret.
  rewrite Hwait, Hmail, Hpass, Hclick, Hexpect.
  cbn [outcome final log app]. repeat split.
  - intros path Hin. cbn [In] in Hin.
    repeat (destruct Hin as [Hin|Hin]; [discriminate Hin|]). exact Hin.
  - intros Hin. cbn [In] in Hin.
    repeat (destruct Hin as [Hin|Hin]; [discriminate Hin|]). exact Hin.
Qed.

Lemma login_success_witness :
  outcome (login Sim.driver (LINKEDIN_EMAIL Pages.someone)
                 (LINKEDIN_PASSWORD Pages.someone) Pages.visitor) = Ok true
  /\ Sim.files (final (login Sim.driver (LINKEDIN_EMAIL Pages.someone)
                         (LINKEDIN_PASSWORD Pages.someone) Pages.visitor)) = [].
Proof.
  destruct (login_success Sim.driver (LINKEDIN_EMAIL Pages.someone)
              (LINKEDIN_PASSWORD Pages.someone) Pages.visitor _ _ _ _ _ _
              eq_refl eq_refl eq_refl eq_refl eq_refl eq_refl)
    as [Hout [Hend _]].
  split; [exact Hout|]. rewrite Hend. reflexivity.
Defined.

(** X2.  [people_message] with a name issues one driver call, the click on
    the button whose name is exactly "Message " followed by the name, and
    ends as that click ends; with [None] it raises a [TypeError] before any
    driver call. *)
Theorem people_message_clicks (drv : PageDriver) (w : World drv) :
  (forall s,
      log (people_message drv (Some s) w)
      = [ Dispatch (Some s);
          Called (CClick (ByRole "button" ("Message " ++ s)%string true)) ]
      /\ outcome (people_message drv (Some s) w)
         = fst (click drv (ByRole "button" ("Message " ++ s)%string true) w)
      /\ final (people_message drv (Some s) w)
         = snd (click drv (ByRole "button" ("Message " ++ s)%string true) w))
  /\ (exists e,
        outcome (people_message drv None w) = Raise e
        /\ exn_type e = TypeError
        /\ final (people_message drv None w) = w
        /\ log (people_message drv None w) = [Dispatch None]).
Proof.
  split.
  - intros s. unfold people_message, bind, emit, concat_message, call, ret.
    now destruct (click drv _ w) as [o w1].
  - unfold people_message, bind, emit, concat_message, raise.
    eexists. repeat split.
Qed.

(** X3.  When the "All filters" button does not show within its bound,
    [people_search] raises what the wait raised, and no card is enumerated
    or read. *)
Theorem filter_precondition (drv : PageDriver) (w w1 : World drv) (e : Exception) :
  expect_to_be_visible drv (ByRole "button" "All filters" false) 3000 w
  = (Raise e, w1) ->
  outcome (people_search drv w) = Raise e
  /\ final (people_search drv w) = w1
  /\ (forall c, In (Called c) (log (people_search drv w)) ->
                c = CExpectVisible (ByRole "button" "All filters" false) 3000).
Proof.
  intros Hexpect.
  unfold people_search, apply_first_degree_filter, bind, call, print, emit.
  rewrite Hexpect. cbn [outcome final log app]. repeat split.
  intros c [H|[H|[H|[]]]]; try discriminate H. now injection H as <-.
Qed.

Lemma filter_precondition_witness :
  outcome (people_search Sim.driver Pages.signed_out) = Raise Sim.timeout_error
  /\ final (people_search Sim.driver Pages.signed_out) = Pages.signed_out.
Proof.
  destruct (filter_precondition Sim.driver Pages.signed_out Pages.signed_out
              Sim.timeout_error eq_refl) as [Hout [Hend _]].
  split; assumption.
Defined.

(** ** The substring test *)

Lemma str_in_unfold (needle hay : string) :
  str_in needle hay =
    if String.prefix needle hay then true
    else match hay with
         | EmptyString => false
         | String _ rest => str_in needle rest
         end.
Proof. now destruct hay. Qed.

Lemma prefix_append (needle hay : string) :
  String.prefix needle hay = true <-> exists post, hay = (needle ++ post)%string.
Proof.
  revert hay. induction needle as [|a needle IH]; intros hay.
  - split; [intros _; now exists hay|]. intros _. now destruct hay.
  - destruct hay as [|b hay]; cbn [String.prefix String.append].
    + split; [discriminate|]. intros [post H]. discriminate H.
    + destruct (Ascii.ascii_dec a b) as [->|Hne].
      * rewrite IH. split; intros [post H]; exists post; congruence.
      * split; [discriminate|]. intros [post H]. congruence.
Qed.

(** X4.  The substring test of lines 28 and 158 ([needle in text]) answers
    [True] exactly when the text is some prefix, then the needle, then some
    suffix. *)
Theorem str_in_spec (needle hay : string) :
  str_in needle hay = true
  <-> exists pre post, hay = (pre ++ needle ++ post)%string.
Proof.
  split.
  - induction hay as [|c hay IH]; rewrite str_in_unfold;
      destruct (String.prefix needle _) eqn:Hpre.
    + intros _. apply prefix_append in Hpre as [post ->]. now exists "", post.
    + discriminate.
    + intros _. apply prefix_append in Hpre as [post ->]. now exists "", post.
    + intros Hin. destruct (IH Hin) as [pre [post ->]].
      now exists (String c pre), post.
  - intros [pre [post ->]]. induction pre as [|c pre IH];
      rewrite str_in_unfold; cbn [String.append].
    + replace (String.prefix needle (needle ++ post)) with true; [reflexivity|].
      symmetry. apply prefix_append. now exists post.
    + destruct (String.prefix needle _); [reflexivity|exact IH].
Qed.

(** ** The driver calls a computation may issue *)

Lemma calls_app (a b : list Event) : calls (a ++ b) = calls a ++ calls b.
Proof.
  induction a as [|e a IH]; [reflexivity|].
  destruct e; cbn [calls app]; now rewrite ?IH.
Qed.

Lemma in_calls (c : Call) (tr : list Event) :
  In c (calls tr) <-> In (Called c) tr.
Proof.
  induction tr as [|e tr IH]; [reflexivity|].
  destruct e as [line|items|c'|person]; cbn [calls In]; rewrite ?IH;
    try (split; [now right|intros [H|H]; [discriminate H|exact H]]).
  split; (intros [H|H]; [left; congruence|now right]).
Qed.

Section WhereInTheLog.

Context {W A B : Type}.

Lemma in_log_bind (m : M W A) (k : A -> M W B) (w : W) (ev : Event) :
  In ev (log (bind m k w)) ->
  In ev (log (m w))
  \/ exists a, outcome (m w) = Ok a /\ In ev (log (k a (final (m w)))).
Proof.
  unfold bind. destruct (m w) as [[a|e] w1 l1]; cbn [outcome final log];
    [|now left].
  destruct (k a w1) as [o w2 l2] eqn:Hk. cbn [log]. intros Hin.
  apply in_app_or in Hin as [Hin|Hin]; [now left|right].
  exists a. split; [reflexivity|]. now rewrite Hk.
Qed.

Lemma in_log_finally (m : M W A) (cleanup : W -> W) (c : Call) (w : W)
    (ev : Event) :
  In ev (log (finally m cleanup c w)) -> In ev (log (m w)) \/ ev = Called c.
Proof.
  unfold finally. destruct (m w) as [o w1 l1]. cbn [log]. intros Hin.
  apply in_app_or in Hin as [Hin|[Hin|[]]]; [now left|now right].
Qed.

Lemma in_log_call (c : Call) (op : W -> Outcome A * W) (w : W) (ev : Event) :
  In ev (log (call c op w)) -> ev = Called c.
Proof.
  unfold call. destruct (op w) as [o w1]. now intros [H|[]].
Qed.

Lemma call_returns (c : Call) (op : W -> Outcome A * W) (w : W) (a : A) :
  outcome (call c op w) = Ok a -> op w = (Ok a, final (call c op w)).
Proof.
  unfold call. destruct (op w) as [o w1]. cbn [outcome final]. now intros ->.
Qed.

End WhereInTheLog.

Section OnlyLemmas.

Context {W : Type} (P : Call -> Prop).

Lemma only_app (a b : list Event) : only P a -> only P b -> only P (a ++ b).
Proof.
  intros Ha Hb c Hin. apply in_app_or in Hin as [Hin|Hin]; auto.
Qed.

Lemma Only_ret {A} (a : A) : Only P (@ret W A a).
Proof. intros w c []. Qed.

Lemma Only_raise {A} (e : Exception) : Only P (@raise W A e).
Proof. intros w c []. Qed.

Lemma Only_print (line : string) : Only P (@print W line).
Proof. intros w c [H|[]]. discriminate H. Qed.

Lemma Only_print_list (items : list PyVal) : Only P (@emit W (PrintList items)).
Proof. intros w c [H|[]]. discriminate H. Qed.

Lemma Only_dispatch (person : PyVal) : Only P (@emit W (Dispatch person)).
Proof. intros w c [H|[]]. discriminate H. Qed.

Lemma Only_call {A} (c : Call) (op : W -> Outcome A * W) :
  P c -> Only P (call c op).
Proof.
  intros Hc w c' Hin. unfold call in Hin. destruct (op w) as [o w1].
  destruct Hin as [H|[]]. now injection H as <-.
Qed.

Lemma Only_bind {A B} (m : M W A) (k : A -> M W B) :
  Only P m -> (forall a, Only P (k a)) -> Only P (bind m k).
Proof.
  intros Hm Hk w. specialize (Hm w). unfold bind.
  destruct (m w) as [[a|e] w1 l1]; cbn [log] in *; [|exact Hm].
  specialize (Hk a w1). destruct (k a w1) as [o w2 l2]. cbn [log] in *.
  now apply only_app.
Qed.

Lemma Only_try_except {A} (m : M W A) (h : Exception -> M W A) :
  Only P m -> (forall e, Only P (h e)) -> Only P (try_except m h).
Proof.
  intros Hm Hh w. specialize (Hm w). unfold try_except.
  destruct (m w) as [[a|e] w1 l1]; cbn [log] in *; [exact Hm|].
  specialize (Hh e w1). destruct (h e w1) as [o w2 l2]. cbn [log] in *.
  now apply only_app.
Qed.

Lemma Only_finally {A} (m : M W A) (cleanup : W -> W) (c : Call) :
  P c -> Only P m -> Only P (finally m cleanup c).
Proof.
  intros Hc Hm w. specialize (Hm w). unfold finally.
  destruct (m w) as [o w1 l1]. cbn [log] in *.
  apply only_app; [exact Hm|]. intros c' [H|[]]. now injection H as <-.
Qed.

End OnlyLemmas.

Ltac only_steps :=
  repeat first
    [ apply Only_bind; [|intros ?]
    | apply Only_try_except; [|intros ?]
    | apply Only_ret | apply Only_raise | apply Only_print
    | apply Only_print_list | apply Only_dispatch
    | apply Only_call
    | match goal with |- Only _ (if ?b then _ else _) => destruct b end
    | match goal with |- Only _ (match ?x with _ => _ end) => destruct x end ].

Section OnlyProgram.

Variable drv : PageDriver.
Variable P : Call -> Prop.

Lemma Only_is_logged_in :
  P (CIsVisible SIGN_IN_BUTTON 2000) ->
  P (CIsVisible JOIN_NOW_LINK 2000) ->
  Only P (is_logged_in drv).
Proof.
  intros Hsign Hjoin w. unfold is_logged_in.
  destruct (str_in "/feed" (page_url drv w));
    match goal with |- only P (log (?m w)) => revert w; change (Only P m) end;
    only_steps; assumption.
Qed.

Lemma Only_login (email password : PyVal) :
  P (CGoto "https://www.linkedin.com/login") ->
  (forall c, In c (login_script email password) -> P c) ->
  P (CScreenshot "login_error.png") ->
  P CPause ->
  Only P (login drv email password).
Proof.
  intros Hgoto Hscript Hshot Hpause.
  unfold login, login_attempt, login_failed. only_steps;
    try assumption; apply Hscript; cbn; auto 10.
Qed.

Lemma Only_company_search (company : string) :
  (forall c, In c (search_script company) -> P c) ->
  Only P (company_search drv company).
Proof.
  intros Hscript. unfold company_search. only_steps;
    apply Hscript; cbn; auto 10.
Qed.

Lemma Only_apply_first_degree_filter :
  (forall c, In c filter_script -> P c) ->
  Only P (apply_first_degree_filter drv).
Proof.
  intros Hscript. unfold apply_first_degree_filter. only_steps;
    apply Hscript; cbn; auto 10.
Qed.

Lemma Only_read_card (card : Locator) :
  P (CGetAttribute (Within card "img.presence-entity__image") "alt") ->
  P (CInnerText (Within card "span.visually-hidden")) ->
  Only P (read_card drv card).
Proof. intros Halt Htext. unfold read_card. only_steps; assumption. Qed.

Lemma Only_scan_cards (cards : list Locator) :
  (forall card, In card cards ->
     P (CGetAttribute (Within card "img.presence-entity__image") "alt")
     /\ P (CInnerText (Within card "span.visually-hidden"))) ->
  forall acc, Only P (scan_cards drv cards acc).
Proof.
  induction cards as [|card rest IH]; intros Hcards acc; cbn [scan_cards].
  - apply Only_ret.
  - apply Only_bind; [|intros ?; apply IH; intros; apply Hcards; now right].
    apply Only_try_except; [|intros ?; apply Only_ret].
    apply Only_bind.
    + apply Only_read_card; apply Hcards; now left.
    + intros [name|]; apply Only_ret.
Qed.

Lemma Only_extract :
  P (CAll PROFILE_CARDS) ->
  (forall card, P (CGetAttribute (Within card "img.presence-entity__image") "alt")) ->
  (forall card, P (CInnerText (Within card "span.visually-hidden"))) ->
  Only P (extract drv).
Proof.
  intros Hall Halt Htext. unfold extract.
  apply Only_bind; [now apply Only_call|]. intros cards.
  apply Only_bind; [apply Only_scan_cards; now split|]. intros results.
  only_steps.
Qed.

Lemma Only_people_message (person : PyVal) :
  (forall s, P (CClick (ByRole "button" ("Message " ++ s)%string true))) ->
  Only P (people_message drv person).
Proof.
  intros Hclick w.
  unfold people_message, concat_message, bind, emit, ret, raise, call.
  destruct person as [s|]; [destruct (click drv _ w) as [o w1]|];
    cbn [log app]; intros c Hin; cbn [In] in Hin.
  - destruct Hin as [H|[H|[]]]; [discriminate H|]. injection H as <-. apply Hclick.
  - destruct Hin as [H|[]]. discriminate H.
Qed.

End OnlyProgram.

Ltac in_list := repeat (try (left; reflexivity); right).

Section OnlyMain.

Variable drv : PageDriver.
Variable P : Call -> Prop.

Lemma Only_message_each (found : list PyVal) :
  (forall s, P (CClick (ByRole "button" ("Message " ++ s)%string true))) ->
  P CPause -> P CClose ->
  Only P (message_each drv found).
Proof.
  intros Hclick Hpause Hclose.
  induction found as [|person rest IH]; cbn [message_each].
  - apply Only_ret.
  - apply Only_bind; [now apply Only_people_message|]. intros _.
    apply Only_bind; [apply Only_print|]. intros _.
    apply Only_bind; [now apply Only_call|]. intros _.
    apply Only_bind; [now apply Only_call|]. intros _. exact IH.
Qed.

(** What follows the detection and the login in [main_demonstration]. *)
Lemma Only_search_and_dispatch (tail : M (World drv) unit) :
  (forall c, In c (search_script COMPANY_TO_SEARCH) -> P c) ->
  (forall c, In c filter_script -> P c) ->
  P (CAll PROFILE_CARDS) ->
  (forall card, P (CGetAttribute (Within card "img.presence-entity__image") "alt")) ->
  (forall card, P (CInnerText (Within card "span.visually-hidden"))) ->
  (forall s, P (CClick (ByRole "button" ("Message " ++ s)%string true))) ->
  P CPause -> P CClose ->
  Only P tail ->
  Only P (bind (company_search drv COMPANY_TO_SEARCH) (fun _ =>
          bind (print "Company search completed") (fun _ =>
          bind (people_search drv) (fun person_found =>
          bind (message_each drv person_found) (fun _ => tail))))).
Proof.
  intros Hsearch Hfilter Hall Halt Htext Hclick Hpause Hclose Htail.
  apply Only_bind; [now apply Only_company_search|]. intros _.
  apply Only_bind; [apply Only_print|]. intros _.
  apply Only_bind.
  { unfold people_search. apply Only_bind;
      [now apply Only_apply_first_degree_filter|]. intros _.
    now apply Only_extract. }
  intros found. apply Only_bind; [now apply Only_message_each|].
  intros _. exact Htail.
Qed.

End OnlyMain.

(** Every driver call of every run is one of the call sites. *)
Lemma main_demonstration_issues (drv : PageDriver) (env : Env) :
  Only (issued env) (main_demonstration drv env).
Proof.
  assert (Hlist : forall c,
            In c ([ CStart; CStop; CLaunch; CNewPage; CClose; CPause;
                    CGoto "https://www.linkedin.com/feed/";
                    CGoto "https://www.linkedin.com/login";
                    CIsVisible SIGN_IN_BUTTON 2000; CIsVisible JOIN_NOW_LINK 2000;
                    CScreenshot "login_error.png"; CAll PROFILE_CARDS ]
                  ++ login_script (LINKEDIN_EMAIL env) (LINKEDIN_PASSWORD env)
                  ++ search_script COMPANY_TO_SEARCH
                  ++ filter_script) ->
            issued env c) by (intros c Hin; now left).
  assert (Hcard : forall card,
            issued env (CGetAttribute (Within card "img.presence-entity__image") "alt")
            /\ issued env (CInnerText (Within card "span.visually-hidden"))).
  { intros card. split; right; left; exists card; auto. }
  assert (Hclick : forall s,
            issued env (CClick (ByRole "button" ("Message " ++ s)%string true))).
  { intros s. right. right. now exists s. }
  unfold main_demonstration.
  apply Only_bind; [apply Only_call, Hlist; cbn; in_list|]. intros _.
  apply Only_finally; [apply Hlist; cbn; in_list|].
  unfold demonstration_body.
  do 3 (apply Only_bind; [apply Only_call, Hlist; cbn; in_list|]; intros _).
  apply Only_bind;
    [apply Only_is_logged_in; apply Hlist; cbn; in_list|]. intros logged_in.
  apply Only_bind.
  { destruct logged_in; cbn [negb]; [apply Only_print|].
    apply Only_bind; [apply Only_print|]. intros _.
    apply Only_bind; [|intros _; apply Only_ret].
    apply Only_login; try (apply Hlist; cbn; in_list).
    intros c Hin. apply Hlist. cbn in Hin |- *. tauto. }
  intros _.
  apply Only_search_and_dispatch;
    try (apply Hlist; cbn; in_list);
    try (intros card; apply Hcard); try exact Hclick.
  - intros c Hin. apply Hlist. cbn in Hin |- *. tauto.
  - intros c Hin. apply Hlist. cbn in Hin |- *. tauto.
  - only_steps; apply Hlist; cbn; in_list.
Qed.

(** ** What the whole run does and does not do *)

(** X5.  Whatever the page does, the program types only what it was
    configured with, and only where it belongs: the identifier into the
    identifier field, the secret into the password field, the company name
    into the search box.  No run fills anything else. *)
Theorem fills_go_to_their_fields (drv : PageDriver) (env : Env) (w : World drv) :
  only (fills_as_configured env) (log (main_demonstration drv env w)).
Proof.
  intros c Hin. apply main_demonstration_issues in Hin.
  destruct Hin as [Hin | [[card [-> | ->]] | [name ->]]];
    try (intros l v H; discriminate H).
  cbn in Hin.
  repeat (destruct Hin as [<- | Hin];
          [intros l v H; try discriminate H; injection H as <- <-; auto|]).
  destruct Hin.
Qed.

(** X6.  A screenshot is only ever written to "login_error.png": no run
    writes one to another path. *)
Theorem screenshots_at_fixed_path (drv : PageDriver) (env : Env) (w : World drv) :
  only screenshot_at_fixed_path (log (main_demonstration drv env w)).
Proof.
  intros c Hin. apply main_demonstration_issues in Hin.
  destruct Hin as [Hin | [[card [-> | ->]] | [name ->]]];
    try (intros path H; discriminate H).
  cbn in Hin.
  repeat (destruct Hin as [<- | Hin];
          [intros path H; try discriminate H; now injection H as <-|]).
  destruct Hin.
Qed.

Ltac not_login_call :=
  let H := fresh in
  intros [H | [[? H] | [[? H] | [? H]]]]; discriminate H.

(** The part of the run that follows the detection of a session issues no
    call of [login]. *)
Lemma Only_after_login (drv : PageDriver) (tail : M (World drv) unit) :
  Only (fun c => ~ login_call c) tail ->
  Only (fun c => ~ login_call c)
       (bind (company_search drv COMPANY_TO_SEARCH) (fun _ =>
        bind (print "Company search completed") (fun _ =>
        bind (people_search drv) (fun person_found =>
        bind (message_each drv person_found) (fun _ => tail))))).
Proof.
  intros Htail. apply Only_search_and_dispatch; try exact Htail;
    try not_login_call; try (intros ?; not_login_call).
  - intros c Hin. cbn in Hin.
    repeat (destruct Hin as [<- | Hin]; [not_login_call|]). destruct Hin.
  - intros c Hin. cbn in Hin.
    repeat (destruct Hin as [<- | Hin]; [not_login_call|]). destruct Hin.
Qed.

(** X7.  The calls that belong to [login] (the navigation to the login
    page, a fill of the identifier or of the password field, a screenshot)
    are issued only in a run in which the browser was started, the feed was
    navigated to and [is_logged_in] then answered [False]. *)
Theorem login_only_when_logged_out (drv : PageDriver) (env : Env)
    (w : World drv) (c : Call) :
  In (Called c) (log (main_demonstration drv env w)) ->
  login_call c ->
  exists w1 w2 w3 w4,
    playwright_start drv w = (Ok tt, w1)
    /\ launch drv w1 = (Ok tt, w2)
    /\ new_page drv w2 = (Ok tt, w3)
    /\ goto drv "https://www.linkedin.com/feed/" w3 = (Ok tt, w4)
    /\ outcome (is_logged_in drv w4) = Ok false.
Proof.
  intros Hin Hlogin.
  assert (Hnot : forall c', Called c = Called c' -> ~ login_call c' -> False)
    by (intros c' H Hc'; injection H as <-; exact (Hc' Hlogin)).
  unfold main_demonstration in Hin.
  apply in_log_bind in Hin as [Hin | [[] [Hstart Hin]]];
    [apply in_log_call in Hin; exfalso; apply (Hnot _ Hin); not_login_call|].
  apply call_returns in Hstart.
  apply in_log_finally in Hin as [Hin | Hin];
    [|exfalso; apply (Hnot _ Hin); not_login_call].
  unfold demonstration_body in Hin.
  apply in_log_bind in Hin as [Hin | [[] [Hlaunch Hin]]];
    [apply in_log_call in Hin; exfalso; apply (Hnot _ Hin); not_login_call|].
  apply call_returns in Hlaunch.
  apply in_log_bind in Hin as [Hin | [[] [Hpage Hin]]];
    [apply in_log_call in Hin; exfalso; apply (Hnot _ Hin); not_login_call|].
  apply call_returns in Hpage.
  apply in_log_bind in Hin as [Hin | [[] [Hgoto Hin]]];
    [apply in_log_call in Hin; exfalso; apply (Hnot _ Hin); not_login_call|].
  apply call_returns in Hgoto.
  do 4 eexists. split; [exact Hstart|]. split; [exact Hlaunch|].
  split; [exact Hpage|]. split; [exact Hgoto|].
  apply in_log_bind in Hin as [Hin | [logged_in [Hdetect Hin]]].
  - exfalso.
    refine (Only_is_logged_in drv (fun c => ~ login_call c) _ _ _ c Hin Hlogin);
      not_login_call.
  - destruct logged_in; [exfalso|exact Hdetect]. cbn [negb] in Hin.
    refine (Only_bind (fun c => ~ login_call c)
              (print "User is already logged in. No action needed.")
              _ _ _ _ c Hin Hlogin).
    + apply Only_print.
    + intros _. apply Only_after_login. only_steps; not_login_call.
Qed.

(** ** Steps, in order *)

Ltac run_calls :=
  repeat match goal with
         | |- context [match ?op with pair _ _ => _ end] =>
             destruct op as [[[]|?e] ?w]
         end.

(** X8.  [is_logged_in] touches the page through visibility probes alone,
    two at most: none on the feed; otherwise the "Sign in" probe, followed
    by the "Join now" probe only when the first answered not visible.  It
    never clicks, fills or navigates. *)
Theorem is_logged_in_probes (drv : PageDriver) (w : World drv) :
  calls (log (is_logged_in drv w)) =
    if str_in "/feed" (page_url drv w) then []
    else match sign_in_probe drv w with
         | Ok false => [ CIsVisible SIGN_IN_BUTTON 2000;
                         CIsVisible JOIN_NOW_LINK 2000 ]
         | _ => [ CIsVisible SIGN_IN_BUTTON 2000 ]
         end.
Proof.
  unfold is_logged_in, sign_in_probe.
  destruct (str_in "/feed" (page_url drv w)); [reflexivity|].
  unfold bind, try_except, call, print, emit, ret.
  destruct (is_visible drv SIGN_IN_BUTTON 2000 w) as [[[|]|e] w1];
    cbn [fst]; try reflexivity.
  now destruct (is_visible drv JOIN_NOW_LINK 2000 w1) as [[[|]|e] w2].
Qed.

Ltac prefix_of script :=
  first [ exists (firstn 1 script), (skipn 1 script); now repeat split
        | exists (firstn 2 script), (skipn 2 script); now repeat split
        | exists (firstn 3 script), (skipn 3 script); now repeat split
        | exists (firstn 4 script), (skipn 4 script); now repeat split
        | exists (firstn 5 script), (skipn 5 script); now repeat split ].

(** X9.  What [login] returns tells what it did.  It returns [True] only
    after every step of the form was issued, in order, and then it took no
    screenshot; it returns [False] only after some first steps of the form,
    in order, followed by the screenshot at "login_error.png" and the
    pause: no step is skipped, and nothing is retried. *)
Theorem login_outcomes (drv : PageDriver) (email password : PyVal)
    (w : World drv) :
  (outcome (login drv email password w) = Ok true ->
   calls (log (login drv email password w))
   = CGoto "https://www.linkedin.com/login" :: login_script email password)
  /\ (outcome (login drv email password w) = Ok false ->
      exists done rest,
        login_script email password = done ++ rest
        /\ done <> []
        /\ calls (log (login drv email password w))
           = CGoto "https://www.linkedin.com/login" :: done
             ++ [CScreenshot "login_error.png"; CPause]).
Proof.
  unfold login, login_attempt, login_failed,
    bind, try_except, call, print, emit, ret.
  run_calls; cbn [outcome log app calls]; split; intros H;
    try discriminate H; try reflexivity;
    prefix_of (login_script email password).
Qed.

(** X10.  [company_search] issues its four steps in order (click on the
    search box, fill with the company, Enter, settle delay) and stops at the
    first that raises: it returns only after all four, and presses Enter
    only after the fill has completed. *)
Theorem company_search_steps (drv : PageDriver) (company : string)
    (w : World drv) :
  (exists done rest,
      search_script company = done ++ rest
      /\ done <> []
      /\ calls (log (company_search drv company w)) = done
      /\ (rest <> [] -> exists e, outcome (company_search drv company w) = Raise e))
  /\ (outcome (company_search drv company w) = Ok tt ->
      calls (log (company_search drv company w)) = search_script company).
Proof.
  unfold company_search, bind, call, print, emit.
  run_calls; cbn [outcome log app calls]; (split; [|intros H;
    try discriminate H; reflexivity]).
  - exists (search_script company), []. repeat split; try discriminate.
    now intros [].
  - exists (search_script company), []. repeat split; try discriminate.
    now intros [].
  - exists (firstn 3 (search_script company)), (skipn 3 (search_script company)).
    repeat split; try discriminate. intros _. now eexists.
  - exists (firstn 2 (search_script company)), (skipn 2 (search_script company)).
    repeat split; try discriminate. intros _. now eexists.
  - exists (firstn 1 (search_script company)), (skipn 1 (search_script company)).
    repeat split; try discriminate. intros _. now eexists.
Qed.

(** [people_search] enumerates the result cards only after the filter
    steps have all completed, in order. *)
Lemma people_search_order (drv : PageDriver) (w : World drv) :
  In (Called (CAll PROFILE_CARDS)) (log (people_search drv w)) ->
  outcome (apply_first_degree_filter drv w) = Ok tt
  /\ exists rest,
       calls (log (people_search drv w))
       = filter_script ++ CAll PROFILE_CARDS :: rest.
Proof.
  unfold people_search, apply_first_degree_filter, bind, call, print, emit.
  run_calls; cbn [outcome log app calls In];
    try (intros Hin;
         repeat (destruct Hin as [Hin|Hin]; [discriminate Hin|]);
         now destruct Hin).
  intros _. split; [reflexivity|].
  match goal with
  | |- context [extract drv ?page] =>
      assert (Hfirst : exists rest,
                 calls (log (extract drv page)) = CAll PROFILE_CARDS :: rest);
      [|destruct (extract drv page) as [o wf lf]]
  end.
  - unfold extract, bind, call, print, emit, ret.
    match goal with
    | |- context [locator_all drv PROFILE_CARDS ?page] =>
        destruct (locator_all drv PROFILE_CARDS page) as [[cards|e] wc]
    end.
    + destruct (scan_cards drv cards [] wc) as [[results|e] ws ls];
        cbn [log app calls]; eexists; reflexivity.
    + now exists [].
  - cbn [log app calls] in *. destruct Hfirst as [rest ->]. now exists rest.
Qed.

Lemma company_search_returns (drv : PageDriver) (company : string)
    (w : World drv) :
  outcome (company_search drv company w) = Ok tt ->
  calls (log (company_search drv company w)) = search_script company.
Proof.
  unfold company_search, bind, call, print, emit.
  run_calls; cbn [outcome log app calls]; intros H;
    try discriminate H; reflexivity.
Qed.

(** ** The extraction pass and the page *)

(** X12.  The extraction pass only reads: besides enumerating the cards it
    issues nothing but reads of the alt attribute and of the status text of
    cards it has enumerated.  It never clicks, fills or navigates. *)
Theorem extract_reads_only (drv : PageDriver) (w : World drv) :
  only (reads_cards (enumerated drv w)) (log (extract drv w)).
Proof.
  unfold enumerated, extract, bind, call.
  destruct (locator_all drv PROFILE_CARDS w) as [[cards|e] w1]; cbn [fst].
  - pose proof (Only_scan_cards drv (reads_cards cards) cards) as Hscan.
    assert (Hcards : forall card, In card cards ->
              reads_cards cards
                (CGetAttribute (Within card "img.presence-entity__image") "alt")
              /\ reads_cards cards
                   (CInnerText (Within card "span.visually-hidden"))).
    { intros card Hin. split; right; exists card; auto. }
    specialize (Hscan Hcards [] w1).
    destruct (scan_cards drv cards [] w1) as [[results|e] w2 l2];
      cbn [log app] in *; intros c [H|Hin].
    + injection H as <-. now left.
    + apply in_app_or in Hin as [Hin|Hin]; [now apply Hscan|].
      unfold print, emit, ret in Hin. cbn in Hin.
      destruct Hin as [H|[H|[]]]; discriminate H.
    + injection H as <-. now left.
    + now apply Hscan.
  - cbn [log]. intros c [H|[]]. injection H as <-. now left.
Qed.

(** The loop over the cards only appends, and at most one entry a card. *)
Lemma scan_cards_appends (drv : PageDriver) (cards : list Locator) :
  forall acc (w : World drv),
    exists added,
      outcome (scan_cards drv cards acc w) = Ok (acc ++ added)
      /\ List.length added <= List.length cards.
Proof.
  induction cards as [|card rest IH]; intros acc w.
  - exists []. cbn. now rewrite app_nil_r.
  - cbn [scan_cards]. unfold bind at 1, try_except, bind, ret.
    destruct (read_card drv card w) as [[[name|]|e] w1 l1];
      [destruct (IH (acc ++ [name]) w1) as [added [Hout Hlen]]
      |destruct (IH acc w1) as [added [Hout Hlen]] ..];
      destruct (scan_cards drv rest _ w1) as [o2 w2 l2];
      cbn [outcome List.length] in *; subst o2;
      [exists (name :: added); rewrite <- app_assoc; cbn [app List.length]
      |exists added ..]; split; try reflexivity; lia.
Qed.

(** X13.  The extraction pass returns at most one entry for each card the
    page enumerated, whatever the reads answer and however the page changes
    in between. *)
Theorem extract_at_most_one_per_card (drv : PageDriver) (w : World drv)
    (results : list PyVal) :
  outcome (extract drv w) = Ok results ->
  List.length results <= List.length (enumerated drv w).
Proof.
  unfold enumerated, extract, bind, call, print, emit, ret.
  destruct (locator_all drv PROFILE_CARDS w) as [[cards|e] w1]; cbn [fst];
    [|discriminate].
  destruct (scan_cards_appends drv cards [] w1) as [added [Hout Hlen]].
  destruct (scan_cards drv cards [] w1) as [o w2 l2]. cbn [outcome] in *.
  subst o. cbn [outcome app]. intros H. injection H as <-. exact Hlen.
Qed.

Lemma extract_at_most_one_per_card_witness :
  outcome (extract Sim.driver Pages.broken)
  = Ok [Some "Alice A"; Some "Carol C"]
  /\ List.length (enumerated Sim.driver Pages.broken) = 4
  /\ List.length [Some "Alice A"; Some "Carol C"]
     <= List.length (enumerated Sim.driver Pages.broken).
Proof.
  split; [reflexivity|]. split; [reflexivity|].
  apply (extract_at_most_one_per_card Sim.driver Pages.broken). reflexivity.
Defined.

(** ** The dispatch loop and the browser *)

Lemma dispatched_after_close_true (drv : PageDriver) (found : list PyVal) :
  forall w : World drv,
    dispatched_after_close true (log (message_each drv found w))
    = dispatched (log (message_each drv found w)).
Proof.
  induction found as [|person others IH]; intros w; [reflexivity|].
  cbn [message_each].
  unfold people_message, concat_message, print.
  unfold bind, emit, ret, raise, call.
  destruct person as [s|]; run_calls; try reflexivity;
    match goal with
    | |- context [message_each drv others ?page] =>
        specialize (IH page);
        destruct (message_each drv others page) as [o wf lf]
    end;
    cbn [log app dispatched dispatched_after_close] in *; now rewrite IH.
Qed.

(** X14.  In the dispatch loop every call of [people_message] but the first
    is made after [browser.close()] has been called: the loop closes the
    browser at the end of each turn. *)
Theorem dispatch_after_close (drv : PageDriver) (found : list PyVal)
    (w : World drv) :
  dispatched_after_close false (log (message_each drv found w))
  = tl (dispatched (log (message_each drv found w))).
Proof.
  destruct found as [|person others]; [reflexivity|].
  cbn [message_each].
  unfold people_message, concat_message, print.
  unfold bind, emit, ret, raise, call.
  destruct person as [s|]; run_calls; try reflexivity;
    match goal with
    | |- context [message_each drv others ?page] =>
        pose proof (dispatched_after_close_true drv others page) as Hrest;
        destruct (message_each drv others page) as [o wf lf]
    end;
    cbn [log app dispatched dispatched_after_close tl] in *; exact Hrest.
Qed.

(** ** The result of [login] *)

(** X15.  [main_demonstration] does not look at what [login] returns: when
    the session is detected as logged out and [login] returns, be it [True]
    or [False], the run goes on to the company search. *)
Theorem search_follows_login (drv : PageDriver) (env : Env)
    (w w1 w2 w3 w4 : World drv) (b : bool) :
  playwright_start drv w = (Ok tt, w1) ->
  launch drv w1 = (Ok tt, w2) ->
  new_page drv w2 = (Ok tt, w3) ->
  goto drv "https://www.linkedin.com/feed/" w3 = (Ok tt, w4) ->
  outcome (is_logged_in drv w4) = Ok false ->
  outcome (login drv (LINKEDIN_EMAIL env) (LINKEDIN_PASSWORD env)
                 (final (is_logged_in drv w4))) = Ok b ->
  In (Called (CClick (ByRole "combobox" "Search" true)))
     (log (main_demonstration drv env w)).
Proof.
  intros Hstart Hlaunch Hpage Hgoto Hdetect Hlogin.
  unfold main_demonstration.
  eapply in_log_bind_r; [now rewrite (call_ok _ _ _ _ _ Hstart)|].
  rewrite (call_ok _ _ _ _ _ Hstart). cbn [final].
  unfold finally.
  destruct (demonstration_body drv env w1) as [o wf lf] eqn:Hbody.
  cbn [log]. apply in_or_app. left.
  replace lf with (log (demonstration_body drv env w1)) by now rewrite Hbody.
  clear Hbody. unfold demonstration_body.
  eapply in_log_bind_r; [now rewrite (call_ok _ _ _ _ _ Hlaunch)|].
  rewrite (call_ok _ _ _ _ _ Hlaunch). cbn [final].
  eapply in_log_bind_r; [now rewrite (call_ok _ _ _ _ _ Hpage)|].
  rewrite (call_ok _ _ _ _ _ Hpage). cbn [final].
  eapply in_log_bind_r; [now rewrite (call_ok _ _ _ _ _ Hgoto)|].
  rewrite (call_ok _ _ _ _ _ Hgoto). cbn [final].
  eapply in_log_bind_r; [exact Hdetect|]. cbn [negb].
  eapply in_log_bind_r.
  { unfold bind at 1, print, emit. unfold bind, ret.
    destruct (login drv _ _ (final (is_logged_in drv w4))) as [o1 w5 l5].
    cbn [outcome] in *. now subst o1. }
  apply in_log_bind_l. unfold company_search.
  eapply in_log_bind_r; [reflexivity|]. apply in_log_bind_l.
  unfold call. destruct (click drv _ _) as [o1 w5]. now left.
Qed.

Lemma search_follows_login_witness :
  outcome (is_logged_in Sim.driver (Sim.with_url Sim.HOME_URL Pages.rejected))
  = Ok false
  /\ outcome (login Sim.driver (LINKEDIN_EMAIL Pages.someone)
                    (LINKEDIN_PASSWORD Pages.someone)
                    (Sim.with_url Sim.HOME_URL Pages.rejected)) = Ok false
  /\ In (Called (CClick (ByRole "combobox" "Search" true)))
        (log (main_demonstration Sim.driver Pages.someone Pages.rejected)).
Proof.
  split; [reflexivity|]. split; [reflexivity|].
  apply (search_follows_login Sim.driver Pages.someone Pages.rejected
           _ _ _ _ false eq_refl eq_refl eq_refl eq_refl eq_refl eq_refl).
Defined.

(** ** The stages of the run, in order *)

Lemma placed_later (mid : list Call -> list Call) (before x : list Call) :
  (exists pre post, x = pre ++ mid post) ->
  exists pre post, before ++ x = pre ++ mid post.
Proof.
  intros [pre [post ->]]. exists (before ++ pre), post. now rewrite app_assoc.
Qed.

Lemma not_enumeration_in (cs : list Call) :
  Forall (fun c' => match c' with CAll _ => False | _ => True end) cs ->
  forall c, In c cs -> c <> CAll PROFILE_CARDS.
Proof.
  intros Hall c Hin. rewrite Forall_forall in Hall. specialize (Hall c Hin).
  now intros ->.
Qed.

(** X11.  The stages come in order: in any run, the result cards are
    enumerated only after the company search (click, fill with the company
    name, Enter, settle delay) and then the filter steps (wait for "All
    filters", the three clicks, settle delay) have all completed, one right
    after the other. *)
Theorem stages_in_order (drv : PageDriver) (env : Env) (w : World drv) :
  In (Called (CAll PROFILE_CARDS)) (log (main_demonstration drv env w)) ->
  exists pre post,
    calls (log (main_demonstration drv env w))
    = pre ++ search_script COMPANY_TO_SEARCH ++ filter_script
          ++ CAll PROFILE_CARDS :: post.
Proof.
  intros Hin.
  assert (Hcall : forall A c (op : World drv -> Outcome A * World drv) w',
             c <> CAll PROFILE_CARDS ->
             In (Called (CAll PROFILE_CARDS)) (log (call c op w')) -> False).
  { intros A c op w' Hc H. apply in_log_call in H. injection H as <-. now apply Hc. }
  unfold main_demonstration in *.
  apply in_log_bind in Hin as [Hin | [[] [Hok Hin]]];
    [exfalso; revert Hin; now apply Hcall|].
  rewrite (bind_ok _ _ _ _ Hok). cbn [log]. rewrite calls_app.
  apply (placed_later (fun post => _ ++ _ ++ _ :: post)).
  revert Hin. generalize (final (call CStart (playwright_start drv) w)).
  clear Hok. intros w1 Hin.
  unfold finally in *.
  destruct (demonstration_body drv env w1) as [ob wb lb] eqn:Hbody.
  cbn [log] in *. rewrite calls_app.
  apply in_app_or in Hin as [Hin | [Hin | []]]; [|discriminate Hin].
  cut (exists pre post,
          calls lb = pre ++ search_script COMPANY_TO_SEARCH ++ filter_script
                         ++ CAll PROFILE_CARDS :: post).
  { intros [pre [post ->]]. exists pre, (post ++ calls [Called CStop]).
    now rewrite <- !app_assoc. }
  replace lb with (log (demonstration_body drv env w1)) in *
    by now rewrite Hbody.
  clear Hbody. unfold demonstration_body in *.
  do 3 (apply in_log_bind in Hin as [Hin | [[] [Hok Hin]]];
        [exfalso; revert Hin; now apply Hcall|];
        rewrite (bind_ok _ _ _ _ Hok); cbn [log]; rewrite calls_app;
        apply (placed_later (fun post => _ ++ _ ++ _ :: post));
        revert Hin;
        match type of Hok with outcome ?r = _ => generalize (final r) end;
        clear Hok; intros ?w Hin).
  apply in_log_bind in Hin as [Hin | [logged_in [Hok Hin]]].
  { exfalso. refine (Only_is_logged_in drv (fun c => c <> CAll PROFILE_CARDS)
                       _ _ _ _ Hin eq_refl); discriminate. }
  rewrite (bind_ok _ _ _ _ Hok). cbn [log]. rewrite calls_app.
  apply (placed_later (fun post => _ ++ _ ++ _ :: post)).
  revert Hin. match type of Hok with outcome ?r = _ => generalize (final r) end.
  clear Hok. intros w5 Hin.
  apply in_log_bind in Hin as [Hin | [[] [Hok Hin]]].
  { exfalso. revert Hin. destruct logged_in; cbn [negb]; intros Hin.
    - refine (Only_print (fun c => c <> CAll PROFILE_CARDS) _ _ _ Hin eq_refl).
    - refine (Only_bind (fun c => c <> CAll PROFILE_CARDS) _ _ _ _ _ _ Hin eq_refl);
        [apply Only_print|]. intros _.
      apply Only_bind; [|intros _; apply Only_ret].
      apply Only_login; try discriminate.
      apply not_enumeration_in. unfold login_script. repeat constructor. }
  rewrite (bind_ok _ _ _ _ Hok). cbn [log]. rewrite calls_app.
  apply (placed_later (fun post => _ ++ _ ++ _ :: post)).
  revert Hin. match type of Hok with outcome ?r = _ => generalize (final r) end.
  clear Hok. intros w6 Hin.
  apply in_log_bind in Hin as [Hin | [[] [Hok Hin]]].
  { exfalso.
    refine (Only_company_search drv (fun c => c <> CAll PROFILE_CARDS) _ _ _ _
              Hin eq_refl).
    apply not_enumeration_in. unfold search_script. repeat constructor. }
  rewrite (bind_ok _ _ _ _ Hok). cbn [log]. rewrite calls_app.
  rewrite (company_search_returns drv _ _ Hok).
  revert Hin. match type of Hok with outcome ?r = _ => generalize (final r) end.
  clear Hok. intros w7 Hin.
  exists []. cbn [app].
  cut (exists post,
          calls (log ((print "Company search completed";;
                       person_found <- people_search drv;;
                       message_each drv person_found;;
                       print "Demonstration finished. Keeping browser open...";;
                       call CPause (pause drv);;
                       call CClose (browser_close drv);;
                       print "Demonstration finished. Keeping browser open...";;
                       call CPause (pause drv);;
                       call CClose (browser_close drv)) w7))
          = filter_script ++ CAll PROFILE_CARDS :: post).
  { intros [post ->]. now exists post. }
  apply in_log_bind in Hin as [Hin | [[] [Hok Hin]]];
    [destruct Hin as [Hin|[]]; discriminate Hin|].
  rewrite (bind_ok _ _ _ _ Hok). cbn [log print emit final calls app].
  cbn [print emit final] in Hin. clear Hok.
  match type of Hin with
  | In _ (log (bind _ ?k ?page)) =>
      destruct (log_bind (people_search drv) k page) as [more Hlog];
      apply in_log_bind in Hin as [Hin | [found [Hok Hin]]]
  end.
  - destruct (people_search_order drv _ Hin) as [_ [rest Hcalls]].
    rewrite Hlog, calls_app, Hcalls.
    exists (rest ++ calls more). now rewrite <- !app_assoc.
  - exfalso.
    match type of Hin with
    | In _ (log (bind ?m ?k ?page)) =>
        refine (Only_bind (fun c => c <> CAll PROFILE_CARDS) m k _ _ page _
                  Hin eq_refl)
    end.
    + apply Only_message_each; discriminate.
    + intros _. only_steps; discriminate.
Qed.

(** ** Instances on the simulated site *)

Lemma fills_go_to_their_fields_witness :
  In (Called (CFill PASSWORD_FIELD (LINKEDIN_PASSWORD Pages.someone)))
     (log (main_demonstration Sim.driver Pages.someone Pages.visitor))
  /\ fills_as_configured Pages.someone
       (CFill PASSWORD_FIELD (LINKEDIN_PASSWORD Pages.someone)).
Proof.
  assert (Hin : In (Called (CFill PASSWORD_FIELD (LINKEDIN_PASSWORD Pages.someone)))
                   (log (main_demonstration Sim.driver Pages.someone Pages.visitor)))
    by (vm_compute; in_list).
  split; [exact Hin|].
  exact (fills_go_to_their_fields Sim.driver Pages.someone Pages.visitor _ Hin).
Defined.

Lemma screenshots_at_fixed_path_witness :
  In (Called (CScreenshot "login_error.png"))
     (log (main_demonstration Sim.driver Pages.someone Pages.rejected))
  /\ screenshot_at_fixed_path (CScreenshot "login_error.png").
Proof.
  assert (Hin : In (Called (CScreenshot "login_error.png"))
                   (log (main_demonstration Sim.driver Pages.someone Pages.rejected)))
    by (vm_compute; in_list).
  split; [exact Hin|].
  exact (screenshots_at_fixed_path Sim.driver Pages.someone Pages.rejected _ Hin).
Defined.

Lemma login_only_when_logged_out_witness :
  In (Called (CGoto "https://www.linkedin.com/login"))
     (log (main_demonstration Sim.driver Pages.someone Pages.visitor))
  /\ login_call (CGoto "https://www.linkedin.com/login")
  /\ exists w1 w2 w3 w4,
       playwright_start Sim.driver Pages.visitor = (Ok tt, w1)
       /\ launch Sim.driver w1 = (Ok tt, w2)
       /\ new_page Sim.driver w2 = (Ok tt, w3)
       /\ goto Sim.driver "https://www.linkedin.com/feed/" w3 = (Ok tt, w4)
       /\ outcome (is_logged_in Sim.driver w4) = Ok false.
Proof.
  assert (Hin : In (Called (CGoto "https://www.linkedin.com/login"))
                   (log (main_demonstration Sim.driver Pages.someone Pages.visitor)))
    by (vm_compute; in_list).
  assert (Hcall : login_call (CGoto "https://www.linkedin.com/login"))
    by (left; reflexivity).
  split; [exact Hin|]. split; [exact Hcall|].
  exact (login_only_when_logged_out Sim.driver Pages.someone Pages.visitor
           _ Hin Hcall).
Defined.

Lemma stages_in_order_witness :
  In (Called (CAll PROFILE_CARDS))
     (log (main_demonstration Sim.driver Pages.someone Pages.scenario))
  /\ exists pre post,
       calls (log (main_demonstration Sim.driver Pages.someone Pages.scenario))
       = pre ++ search_script COMPANY_TO_SEARCH ++ filter_script
             ++ CAll PROFILE_CARDS :: post.
Proof.
  assert (Hin : In (Called (CAll PROFILE_CARDS))
                   (log (main_demonstration Sim.driver Pages.someone Pages.scenario)))
    by (vm_compute; in_list).
  split; [exact Hin|].
  exact (stages_in_order Sim.driver Pages.someone Pages.scenario Hin).
Defined.

Lemma extract_reads_only_witness :
  In (Called (CInnerText (Within (Item PROFILE_CARDS 2) "span.visually-hidden")))
     (log (extract Sim.driver Pages.scenario))
  /\ reads_cards (enumerated Sim.driver Pages.scenario)
       (CInnerText (Within (Item PROFILE_CARDS 2) "span.visually-hidden")).
Proof.
  assert (Hin : In (Called (CInnerText
                              (Within (Item PROFILE_CARDS 2) "span.visually-hidden")))
                   (log (extract Sim.driver Pages.scenario)))
    by (vm_compute; in_list).
  split; [exact Hin|].
  exact (extract_reads_only Sim.driver Pages.scenario _ Hin).
Defined.

(** The calls of some runs, as the theorems above describe them. *)
Example calls_of_runs :
  calls (log (is_logged_in Sim.driver Pages.my_network))
  = [CIsVisible SIGN_IN_BUTTON 2000; CIsVisible JOIN_NOW_LINK 2000]
  /\ calls (log (is_logged_in Sim.driver Pages.signed_out))
     = [CIsVisible SIGN_IN_BUTTON 2000]
  /\ calls (log (login Sim.driver (LINKEDIN_EMAIL Pages.someone)
                       (LINKEDIN_PASSWORD Pages.someone) Pages.rejected))
     = CGoto "https://www.linkedin.com/login"
       :: login_script (LINKEDIN_EMAIL Pages.someone) (LINKEDIN_PASSWORD Pages.someone)
       ++ [CScreenshot "login_error.png"; CPause]
  /\ calls (log (company_search Sim.driver COMPANY_TO_SEARCH Pages.signed_out))
     = [CClick (ByRole "combobox" "Search" true)]
  /\ dispatched_after_close false
       (log (message_each Sim.driver [Some "Alice A"; Some "Carol C"] Pages.scenario))
     = [Some "Carol C"].
Proof. vm_compute. repeat split. Qed.

(** ** Credentials *)

(** Once the identifier field is ready, [login] prints the identifier. *)
Lemma login_prints_email (drv : PageDriver) (email password : PyVal)
    (w w1 w2 : World drv) :
  goto drv "https://www.linkedin.com/login" w = (Ok tt, w1) ->
  wait_for drv USERNAME_FIELD 10000 w1 = (Ok tt, w2) ->
  In (Print ("INFO: Filling out email: " ++ py_str email)%string)
     (log (login drv email password w)).
Proof.
  intros Hgoto Hwait.
  rewrite (login_after_goto drv email password w w1 Hgoto). cbn [log].
  apply in_or_app. right. apply in_log_try_l.
  unfold login_attempt.
  eapply in_log_bind_r; [reflexivity|]. cbn [final print emit].
  eapply in_log_bind_r; [rewrite (call_ok _ _ _ _ _ Hwait); reflexivity|].
  apply in_log_bind_l. left. reflexivity.
Qed.

Section LinesLemmas.

Context {W : Type} (P : string -> Prop).

Lemma prints_app (a b : list Event) : prints P a -> prints P b -> prints P (a ++ b).
Proof.
  intros Ha Hb line Hin. apply in_app_or in Hin as [Hin|Hin]; auto.
Qed.

Lemma Prints_ret {A} (a : A) : Prints P (@ret W A a).
Proof. intros w line []. Qed.

Lemma Prints_raise {A} (e : Exception) : Prints P (@raise W A e).
Proof. intros w line []. Qed.

Lemma Prints_print (line : string) : P line -> Prints P (@print W line).
Proof. intros Hline w line' [H|[]]. now injection H as <-. Qed.

Lemma Prints_print_list (items : list PyVal) : Prints P (@emit W (PrintList items)).
Proof. intros w line [H|[]]. discriminate H. Qed.

Lemma Prints_dispatch (person : PyVal) : Prints P (@emit W (Dispatch person)).
Proof. intros w line [H|[]]. discriminate H. Qed.

Lemma Prints_call {A} (c : Call) (op : W -> Outcome A * W) : Prints P (call c op).
Proof.
  intros w line Hin. unfold call in Hin. destruct (op w) as [o w1].
  destruct Hin as [H|[]]. discriminate H.
Qed.

Lemma Prints_bind {A B} (m : M W A) (k : A -> M W B) :
  Prints P m -> (forall a, Prints P (k a)) -> Prints P (bind m k).
Proof.
  intros Hm Hk w. specialize (Hm w). unfold bind.
  destruct (m w) as [[a|e] w1 l1]; cbn [log] in *; [|exact Hm].
  specialize (Hk a w1). destruct (k a w1) as [o w2 l2]. cbn [log] in *.
  now apply prints_app.
Qed.

(** The handler is run on the exception the body raised, and on no other. *)
Lemma Prints_try_except {A} (m : M W A) (h : Exception -> M W A) :
  Prints P m ->
  (forall e w, outcome (m w) = Raise e -> prints P (log (h e (final (m w))))) ->
  Prints P (try_except m h).
Proof.
  intros Hm Hh w. specialize (Hm w). specialize (fun e => Hh e w).
  unfold try_except.
  destruct (m w) as [[a|e] w1 l1]; cbn [outcome final log] in *; [exact Hm|].
  specialize (Hh e eq_refl). destruct (h e w1) as [o w2 l2]. cbn [log] in *.
  now apply prints_app.
Qed.

Lemma Prints_finally {A} (m : M W A) (cleanup : W -> W) (c : Call) :
  Prints P m -> Prints P (finally m cleanup c).
Proof.
  intros Hm w. specialize (Hm w). unfold finally.
  destruct (m w) as [o w1 l1]. cbn [log] in *.
  apply prints_app; [exact Hm|]. intros line [H|[]]. discriminate H.
Qed.

End LinesLemmas.

Ltac lines_steps :=
  repeat first
    [ apply Prints_bind; [|intros ?]
    | apply Prints_ret | apply Prints_raise | apply Prints_call
    | apply Prints_print_list | apply Prints_dispatch
    | apply Prints_print
    | match goal with |- Prints _ (if ?b then _ else _) => destruct b end
    | match goal with |- Prints _ (match ?x with _ => _ end) => destruct x end ].

(** An exception out of the [try] block of [login] is the exception of one
    of its driver calls. *)
Lemma login_attempt_raise_origin (drv : PageDriver) (env : Env)
    (w : World drv) (e : Exception) :
  outcome (login_attempt drv (LINKEDIN_EMAIL env) (LINKEDIN_PASSWORD env) w)
  = Raise e ->
  raised_by_form drv env e.
Proof.
  unfold login_attempt, bind, call, print, emit, ret, raised_by_form.
  repeat match goal with
         | |- context [match ?op with pair _ _ => _ end] =>
             let H := fresh "Hop" in destruct op as [[[]|?e] ?w] eqn:H
         end;
    cbn [outcome]; intros Hraise; try discriminate Hraise;
    injection Hraise as <-;
    match goal with
    | H : _ = (Raise _, _) |- _ =>
        eexists;
        first [ left; exact (f_equal fst H)
              | right; left; exact (f_equal fst H)
              | do 2 right; left; exact (f_equal fst H)
              | do 3 right; left; exact (f_equal fst H)
              | do 4 right; exact (f_equal fst H) ]
    end.
Qed.

Section LinesOfTheProgram.

Variable drv : PageDriver.
Variable env : Env.

Local Abbreviation P := (printed_as_written drv env).

Lemma fixed_line_printed (line : string) : In line fixed_lines -> P line.
Proof. intros Hin. now left. Qed.

Ltac fixed_line := solve [apply fixed_line_printed; unfold fixed_lines; in_list].

Lemma Prints_is_logged_in : Prints P (is_logged_in drv).
Proof.
  intros w. unfold is_logged_in.
  destruct (str_in "/feed" (page_url drv w));
    match goal with |- prints P (log (?m w)) => revert w; change (Prints P m) end.
  - lines_steps. fixed_line.
  - apply Prints_bind.
    + apply Prints_try_except; [lines_steps; fixed_line|].
      intros e w' _. now apply Prints_ret.
    + intros [b|]; lines_steps. fixed_line.
Qed.

Lemma Prints_login :
  Prints P (login drv (LINKEDIN_EMAIL env) (LINKEDIN_PASSWORD env)).
Proof.
  unfold login.
  apply Prints_bind; [apply Prints_print; fixed_line|]. intros _.
  apply Prints_bind; [apply Prints_call|]. intros _.
  apply Prints_try_except.
  - unfold login_attempt. lines_steps; try fixed_line.
    right. left. reflexivity.
  - intros e w Hraise. apply login_attempt_raise_origin in Hraise.
    revert Hraise. generalize (final (login_attempt drv (LINKEDIN_EMAIL env)
                                        (LINKEDIN_PASSWORD env) w)).
    intros w' Hraise. revert w'.
    change (Prints P (login_failed drv e)).
    unfold login_failed. lines_steps; try fixed_line.
    right. right. now exists e.
Qed.

Lemma Prints_company_search : Prints P (company_search drv COMPANY_TO_SEARCH).
Proof. unfold company_search. lines_steps; fixed_line. Qed.

Lemma Prints_scan_cards (cards : list Locator) :
  forall acc, Prints P (scan_cards drv cards acc).
Proof.
  induction cards as [|card rest IH]; intros acc; cbn [scan_cards].
  - apply Prints_ret.
  - apply Prints_bind; [|intros ?; apply IH].
    apply Prints_try_except; [|intros e w _; now apply Prints_ret].
    unfold read_card. lines_steps.
Qed.

Lemma Prints_people_search : Prints P (people_search drv).
Proof.
  unfold people_search, apply_first_degree_filter, extract.
  lines_steps; try fixed_line. apply Prints_scan_cards.
Qed.

Lemma Prints_message_each (found : list PyVal) : Prints P (message_each drv found).
Proof.
  induction found as [|person rest IH]; cbn [message_each].
  - apply Prints_ret.
  - unfold people_message, concat_message. lines_steps; try fixed_line; exact IH.
Qed.

Lemma Prints_main_demonstration : Prints P (main_demonstration drv env).
Proof.
  unfold main_demonstration.
  apply Prints_bind; [apply Prints_call|]. intros _.
  apply Prints_finally. unfold demonstration_body.
  do 3 (apply Prints_bind; [apply Prints_call|]; intros _).
  apply Prints_bind; [apply Prints_is_logged_in|]. intros logged_in.
  apply Prints_bind.
  { destruct logged_in; cbn [negb]; [apply Prints_print; fixed_line|].
    apply Prints_bind; [apply Prints_print; fixed_line|]. intros _.
    apply Prints_bind; [apply Prints_login|]. intros _. apply Prints_ret. }
  intros _.
  apply Prints_bind; [apply Prints_company_search|]. intros _.
  apply Prints_bind; [apply Prints_print; fixed_line|]. intros _.
  apply Prints_bind; [apply Prints_people_search|]. intros found.
  apply Prints_bind; [apply Prints_message_each|]. intros _.
  lines_steps; fixed_line.
Qed.

End LinesOfTheProgram.

Lemma in_printed_lists (items : list PyVal) (tr : list Event) :
  In (PrintList items) tr -> In items (printed_lists tr).
Proof.
  induction tr as [|ev tr IH]; [intros []|].
  intros [->|Hin]; [now left|].
  destruct ev; cbn [printed_lists]; auto. right. auto.
Qed.

(** A list the program prints is the list of names [extract] returned. *)
Lemma printed_list_origin (drv : PageDriver) (env : Env) (w : World drv)
    (items : list PyVal) :
  In (PrintList items) (log (main_demonstration drv env w)) ->
  exists w0 : World drv, outcome (extract drv w0) = Ok items.
Proof.
  intros Hin. apply in_printed_lists in Hin.
  assert (Hfollows : dispatch_follows drv (main_demonstration drv env w)).
  { unfold main_demonstration.
    apply dispatch_follows_bind_quiet; [apply Quiet_call|]. intros _ w0.
    apply dispatch_follows_finally. apply dispatch_follows_body. }
  destruct Hfollows as [[_ [_ Hnone]]
                       | (w0 & w1 & cards & found & _ & Hext & _ & Hpl & _)].
  - rewrite Hnone in Hin. destruct Hin.
  - rewrite Hpl in Hin. destruct Hin as [<-|[]]. now exists w0.
Qed.

(** The form calls of the simulated site raise one of two exceptions. *)
Lemma sim_form_errors (env : Env) (e : Exception) :
  raised_by_form Sim.driver env e ->
  e = Sim.closed_error \/ e = Sim.timeout_error.
Proof.
  intros [p Hp]. cbn in Hp. unfold Sim.act, Sim.sim_click, Sim.alive in Hp.
  destruct (Sim.closed p).
  - left. cbn in Hp. destruct Hp as [H|[H|[H|[H|H]]]]; now injection H.
  - right.
    repeat match type of Hp with
           | context [if ?b then _ else _] => destruct b
           end;
      cbn in Hp; destruct Hp as [H|[H|[H|[H|H]]]];
      first [discriminate H | now injection H].
Qed.




(** ** Runs on the simulated site *)

(** The specification's scenario: Alice and Carol are extracted, in that
    order, and [people_message] is called for both.  The browser is closed
    at the end of the first turn of the loop, so the second call raises. *)
Example scenario_run :
  printed_lists (log (main_demonstration Sim.driver Pages.someone Pages.scenario))
  = [[Some "Alice A"; Some "Carol C"]]
  /\ dispatched (log (main_demonstration Sim.driver Pages.someone Pages.scenario))
     = [Some "Alice A"; Some "Carol C"]
  /\ outcome (main_demonstration Sim.driver Pages.someone Pages.scenario)
     = Raise Sim.closed_error.
Proof. vm_compute. repeat split. Qed.

(** With three active cards the third name gets no call. *)
Example all_active_run :
  printed_lists (log (main_demonstration Sim.driver Pages.someone Pages.all_active))
  = [[Some "Alice A"; Some "Bob B"; Some "Carol C"]]
  /\ dispatched (log (main_demonstration Sim.driver Pages.someone Pages.all_active))
     = [Some "Alice A"; Some "Bob B"].
Proof. vm_compute. repeat split. Qed.

(** With one active card the one name gets its call. *)
Example one_active_run :
  printed_lists (log (main_demonstration Sim.driver Pages.someone Pages.one_active))
  = [[Some "Carol C"]]
  /\ dispatched (log (main_demonstration Sim.driver Pages.someone Pages.one_active))
     = [Some "Carol C"].
Proof. vm_compute. repeat split. Qed.

(** A visitor whose credentials the site accepts is signed in by [login]. *)
Example visitor_login :
  outcome (login Sim.driver (LINKEDIN_EMAIL Pages.someone)
                 (LINKEDIN_PASSWORD Pages.someone) Pages.visitor) = Ok true
  /\ Sim.signed_in (final (login Sim.driver (LINKEDIN_EMAIL Pages.someone)
                                 (LINKEDIN_PASSWORD Pages.someone) Pages.visitor))
     = true.
Proof. vm_compute. repeat split. Qed.

(** A name of any length but two does not unpack, and neither does [None]. *)
Example message_person_on_names :
  outcome (message_person Sim.driver [Some "Alice A"; Some "Carol C"] Pages.feed)
  = Raise (mkExn ValueError "too many values to unpack (expected 2)")
  /\ outcome (message_person Sim.driver [None] Pages.feed)
     = Raise (mkExn TypeError "cannot unpack non-iterable NoneType object")
  /\ log (message_person Sim.driver [Some "Bo"; Some "Li"; Some "Alice A"] Pages.feed)
     = [Print "Ready to process: B"; Print "Ready to process: L"].
Proof. vm_compute. repeat split. Qed.

(** [str_in] is Python's [in] on strings. *)
Example str_in_examples :
  str_in "/feed" "https://www.linkedin.com/feed/" = true
  /\ str_in "/feed" "https://www.linkedin.com/login" = false
  /\ str_in "Status" "Status is online" = true
  /\ str_in "Status" "status is online" = false
  /\ str_in "Status" "" = false
  /\ str_in "" "" = true.
Proof. repeat split. Qed.
